(** * Human-behaviour simulation core of linkedin-automation

    A shallow embedding of the Go package [stealth] (scheduler, typer,
    scroller, mouse mover, timing controller, fingerprint masker), of
    [config.LoadConfig] and [config.validateConfig], of the construction of
    the components in [main] and of the notes of the connection manager,
    together with the properties of the specification that concern them
    and further properties of the code.

    Conventions of the embedding.
    - A Go [int] is a [Z]; arithmetic on configured or supplied values goes
      through [GoInt], which wraps at 64 bits; sums of small constants and
      draws are written directly.
    - [time.Duration] is a number of nanoseconds, as in Go.
    - A [*rand.Rand] is a sequence of raw values with a cursor; [Intn] and
      [Float64] take one value each.
    - float64 probabilities and draws are rationals, float64 coordinates are
      real numbers; float64 arithmetic is read as exact, and a property is
      only stated where it survives the rounding of the real operations.
      [Curve64] is the evaluation of the curve in binary64, operation by
      operation, where the rounding itself is the subject.
    - Calls on the remote page (keyboard, mouse) are recorded in a trace, in
      program order, with their call site, and are taken to succeed;
      [time.Sleep] is recorded in the same way.
    - A Go run-time panic is the result [Panic], which keeps the calls issued
      before it. *)

From Stdlib Require Import ZArith QArith Qreals List String Bool Lia.
From Stdlib Require Lqa.
From Stdlib Require Floats.
From Stdlib Require Import Reals Lra.
Import ListNotations.
Local Open Scope Z_scope.

(** * Part I: the model *)

(** ** Go integers *)

Module GoInt.

(** The value an [int] (64 bits, two's complement) keeps of a result. *)
Definition wrap64 (z : Z) : Z := (z + 2 ^ 63) mod 2 ^ 64 - 2 ^ 63.

Definition add (a b : Z) : Z := wrap64 (a + b).
Definition sub (a b : Z) : Z := wrap64 (a - b).
Definition mul (a b : Z) : Z := wrap64 (a * b).
Definition neg (a : Z) : Z := wrap64 (- a).

(** [a / b] for a divisor that is not zero: truncated towards zero. *)
Definition quo (a b : Z) : Z := wrap64 (a ÷ b).

Definition inRange (z : Z) : Prop := - 2 ^ 63 <= z < 2 ^ 63.

End GoInt.

(** ** Random source and effects *)

Module Effects.

(** A [*rand.Rand]: the raw values it will deliver, and how many have been
    taken. *)
Record Rand := mkRand { draws : nat -> Z; cursor : nat }.

Definition raw (r : Rand) : Z := draws r (cursor r).
Definition advance (r : Rand) : Rand := mkRand (draws r) (S (cursor r)).

(** The [k]-th raw value still to come, and the source after [k] draws. *)
Definition drawAt (r : Rand) (k : nat) : Z := draws r (k + cursor r).
Definition advanceBy (k : nat) (r : Rand) : Rand :=
  mkRand (draws r) (k + cursor r).

(** The float64 of [0, 1) a raw value stands for. *)
Definition float64Of (z : Z) : Q := (z mod 2 ^ 53) # (2 ^ 53).

(** A source that delivers the listed raw values, then zeros. *)
Definition fromList (l : list Z) : Rand := mkRand (fun i => nth i l 0) O.

(** The outcome of a run: a value, the source after the run and the calls
    issued, or a panic after the calls issued until then. *)
Inductive Result (E A : Type) : Type :=
| Ok (a : A) (r : Rand) (t : list E)
| Panic (t : list E) (msg : string).
Arguments Ok {E A} a r t.
Arguments Panic {E A} t msg.

Definition M (E A : Type) : Type := Rand -> Result E A.

Definition ret {E A} (a : A) : M E A := fun r => Ok a r [].

Definition bind {E A B} (m : M E A) (f : A -> M E B) : M E B :=
  fun r =>
    match m r with
    | Ok a r1 t1 =>
        match f a r1 with
        | Ok b r2 t2 => Ok b r2 (t1 ++ t2)
        | Panic t2 msg => Panic (t1 ++ t2) msg
        end
    | Panic t1 msg => Panic t1 msg
    end.

Definition emit {E} (e : E) : M E unit := fun r => Ok tt r [e].
Definition panic {E A} (msg : string) : M E A := fun _ => Panic [] msg.

(** The calls issued by a run, whether it returned or panicked. *)
Definition traceOf {E A} (res : Result E A) : list E :=
  match res with
  | Ok _ _ t => t
  | Panic t _ => t
  end.

(** [r.Intn(n)]: panics unless [n > 0], else a value of [0 .. n-1]. *)
Definition Intn {E} (n : Z) : M E Z :=
  fun r =>
    if n <=? 0 then Panic [] "invalid argument to Intn"
    else Ok (raw r mod n) (advance r) [].

(** [r.Float64()]: a multiple of 2^-53 in [0, 1). *)
Definition Float64 {E} : M E Q :=
  fun r => Ok (float64Of (raw r)) (advance r) [].

(** [x < y] on float64 values, which are rationals; the comparison is
    exact. *)
Definition Qltb (x y : Q) : bool := negb (Qle_bool y x).

(** [returns m post]: from every source, [m] returns, with a value and a
    trace that satisfy [post]. *)
Definition returns {E A} (m : M E A) (post : A -> list E -> Prop) : Prop :=
  forall r, exists a r' t, m r = Ok a r' t /\ post a t.

(** [always m P]: every call [m] issues satisfies [P], whether the run
    returns or panics. *)
Definition always {E A} (m : M E A) (P : E -> Prop) : Prop :=
  forall r, Forall P (traceOf (m r)).

(** [outcome m ok bad]: whatever the source, a run of [m] that returns
    satisfies [ok], and one that panics has issued calls that satisfy
    [bad]. *)
Definition outcome {E A} (m : M E A) (ok : A -> list E -> Prop)
  (bad : list E -> Prop) : Prop :=
  forall r, match m r with
            | Ok a _ t => ok a t
            | Panic t _ => bad t
            end.

(** A run seen through a relabelling of its calls: a function that issues
    the calls of another one among its own. *)
Definition mapEvents {E F A} (f : E -> F) (m : M E A) : M F A :=
  fun r =>
    match m r with
    | Ok a r1 t => Ok a r1 (map f t)
    | Panic t msg => Panic (map f t) msg
    end.

(** Go's [error]: [None] is nil. *)
Definition error := option string.

End Effects.

Declare Scope go_scope.
Delimit Scope go_scope with go.
Notation "x <- m ;; k" := (Effects.bind m (fun x => k))
  (at level 61, m at next level, right associativity) : go_scope.
Notation "m ;; k" := (Effects.bind m (fun _ => k))
  (at level 61, right associativity) : go_scope.

(** ** Scheduler (package stealth, type [Scheduler]) *)

Module Sched.

(** A wall-clock instant of the scheduler's time zone: nanoseconds since
    1970-01-01 00:00 local time.  Every [time.Now().In(s.timezone)] of the
    source is read as such an instant.  Elapsed time and [time.Date] are
    linear on it, which is what the real clock does in a zone whose offset
    never changes, as UTC; the zone itself is not read. *)
Definition Time := Z.

Definition hourNs : Z := 3600 * 1000000000.
Definition dayNs : Z := 24 * hourNs.

(** [time.Weekday]: Sunday = 0, ..., Saturday = 6. *)
Definition Sunday : Z := 0.
Definition Monday : Z := 1.
Definition Friday : Z := 5.
Definition Saturday : Z := 6.

(** Day ordinal (days since 1970-01-01, a Thursday), [t.Weekday()] and
    [t.Hour()]. *)
Definition Day (t : Time) : Z := t / dayNs.
Definition Weekday (t : Time) : Z := (Day t + 4) mod 7.
Definition Hour (t : Time) : Z := (t / hourNs) mod 24.

(** [time.Date(y, m, d, h, 0, 0, 0, loc)] with the date given by its day
    ordinal; an hour outside 0..23 overflows into the day, as [time.Date]
    normalises it. *)
Definition Date (d h : Z) : Time := (d * 24 + h) * hourNs.

(** A [*time.Location]: UTC, the local zone, or a zone of the zone
    database. *)
Inductive Location := UTC | Local | Zone (name : string).

(** [Scheduler], without its random source. *)
Record Scheduler := mkScheduler {
  businessHoursStart : Z;
  businessHoursEnd : Z;
  timezone : Location;
  weekendActivity : bool;
  breakDurationMin : Z;
  breakDurationMax : Z;
  breakProbability : Q
}.

(** [time.LoadLocation] on a system without zone database: the names it
    resolves by itself, and an error for every other name. *)
Definition builtinLocation (name : string) : Location + string :=
  if ((name =? "") || (name =? "UTC"))%string then inl UTC
  else if (name =? "Local")%string then inl Local
  else inr ("unknown time zone " ++ name)%string.

Section Construction.

(** [time.LoadLocation]: the location of a zone identifier, or the error
    for an identifier that the system does not resolve. *)
Variable LoadLocation : string -> Location + string.

(** [NewScheduler]: the only check is that the zone resolves. *)
Definition NewScheduler (businessHoursStart businessHoursEnd : Z)
  (timezone : string) (weekendActivity : bool)
  (breakDurationMin breakDurationMax : Z) (breakProbability : Q)
  : Scheduler + string :=
  match LoadLocation timezone with
  | inr err => inr err
  | inl loc =>
      inl (mkScheduler businessHoursStart businessHoursEnd loc
             weekendActivity breakDurationMin breakDurationMax
             breakProbability)
  end.

End Construction.

(** [IsBusinessHours], at the instant [now]. *)
Definition IsBusinessHours (s : Scheduler) (now : Time) : bool :=
  let hour := Hour now in
  if negb (weekendActivity s)
     && ((Weekday now =? Saturday) || (Weekday now =? Sunday))
  then false
  else (businessHoursStart s <=? hour) && (hour <? businessHoursEnd s).

(** The body of the loop of [WaitForBusinessHours]: the instant the loop
    decides to sleep until. *)
Definition nextBusinessTime (s : Scheduler) (now : Time) : Time :=
  if Weekday now =? Saturday then
    Date (Day now + 2) (businessHoursStart s)
  else if Weekday now =? Sunday then
    Date (Day now + 1) (businessHoursStart s)
  else if Hour now <? businessHoursStart s then
    Date (Day now) (businessHoursStart s)
  else
    Date (Day now + 1) (businessHoursStart s).

(** [time.Until(t)] saturates at the bounds of [time.Duration]. *)
Definition maxDuration : Z := 2 ^ 63 - 1.
Definition minDuration : Z := - 2 ^ 63.

Definition Until (now t : Time) : Z :=
  let d := t - now in
  if d <? minDuration then minDuration
  else if maxDuration <? d then maxDuration
  else d.

(** [time.Sleep(d)]: the clock after the call; a duration that is not
    positive returns at once. *)
Definition Sleep (now : Time) (d : Z) : Time :=
  if 0 <? d then now + d else now.

(** [WaitForBusinessHours] started at [now]: the instant at which the loop
    exits, [None] when [fuel] iterations of the body do not reach it.  The
    test of the loop and its body read the clock at the same instant, and
    a sleep ends exactly when its duration has elapsed. *)
Fixpoint WaitForBusinessHours (fuel : nat) (s : Scheduler) (now : Time)
  : option Time :=
  if IsBusinessHours s now then Some now
  else match fuel with
       | O => None
       | S fuel' =>
           let next := nextBusinessTime s now in
           WaitForBusinessHours fuel' s (Sleep now (Until now next))
       end.

(** [WaitForBusinessHours] with the clock reads of the source kept apart.
    Every iteration reads the clock three times: in [IsBusinessHours], at
    the top of the body and in [time.Until].  [lag k] is the time that
    passes before the read of index [k]: since the call, since the read
    before it, or since the end of the sleep before it (waking up late is
    part of it).  The result is the instant [IsBusinessHours] read when the
    loop exited, with the number of calls of [time.Sleep]; [None] when
    [fuel] iterations of the body do not reach the exit. *)
Fixpoint WaitForBusinessHoursReads (lag : nat -> Z) (fuel : nat)
  (s : Scheduler) (k : nat) (t : Time) : option (Time * nat) :=
  let checked := t + lag k in
  if IsBusinessHours s checked then Some (checked, O)
  else match fuel with
       | O => None
       | S fuel' =>
           let now := checked + lag (S k) in
           let next := nextBusinessTime s now in
           let asked := now + lag (S (S k)) in
           let woke := Sleep asked (Until asked next) in
           match WaitForBusinessHoursReads lag fuel' s (S (S (S k))) woke with
           | Some (t', sleeps) => Some (t', S sleeps)
           | None => None
           end
       end.
(** The policy of the specification for the next window start, written from
    its words: a day is permitted when it is a weekday or weekend activity is
    on; before the start hour of a permitted day the start is that day's,
    otherwise it is the start of the following permitted day. *)
Definition permittedDay (s : Scheduler) (d : Z) : bool :=
  weekendActivity s
  || negb ((((d + 4) mod 7) =? Saturday) || (((d + 4) mod 7) =? Sunday)).

Definition followingPermittedDay (s : Scheduler) (d : Z) : Z :=
  if permittedDay s (d + 1) then d + 1
  else if permittedDay s (d + 2) then d + 2
  else d + 3.

Definition NextWindowStart_spec (s : Scheduler) (now : Time) : Time :=
  if permittedDay s (Day now) && (Hour now <? businessHoursStart s)
  then Date (Day now) (businessHoursStart s)
  else Date (followingPermittedDay s (Day now)) (businessHoursStart s).

(** [time.Date(y, m, d, h, min, 0, 0, loc)], the date given by its day
    ordinal. *)
Definition minuteNs : Z := 60 * 1000000000.
Definition DateAt (d h m : Z) : Time := ((d * 24 + h) * 60 + m) * minuteNs.

(** The call [TakeBreak] issues: [time.Sleep(d)]. *)
Inductive BreakEvent := BreakSleep (d : Z).

(** [ShouldTakeBreak]. *)
Definition ShouldTakeBreak {E} (s : Scheduler) : Effects.M E bool :=
  Effects.bind Effects.Float64
    (fun p => Effects.ret (Effects.Qltb p (breakProbability s))).

(** [TakeBreak]. *)
Definition TakeBreak (s : Scheduler) : Effects.M BreakEvent unit :=
  Effects.bind
    (Effects.Intn
       (GoInt.add (GoInt.sub (breakDurationMax s) (breakDurationMin s)) 1))
    (fun n =>
       let duration := GoInt.add (breakDurationMin s) n in
       Effects.emit (BreakSleep (GoInt.mul duration minuteNs))).

(** The break step of the loop of [main]:
    [if scheduler.ShouldTakeBreak() { scheduler.TakeBreak() }]. *)
Definition breakStep (s : Scheduler) : Effects.M BreakEvent unit :=
  Effects.bind (ShouldTakeBreak s)
    (fun b => if b then TakeBreak s else Effects.ret tt).

(** [GetRandomStartTime], at the instant [now].  [startTime.Add(24 *
    time.Hour)] is 24 hours of elapsed time: on the wall clock it is the
    same hour of the next day in a zone whose offset does not change, as
    UTC. *)
Definition GetRandomStartTime {E} (s : Scheduler) (now : Time)
  : Effects.M E Time :=
  Effects.bind
    (Effects.Intn (GoInt.sub (businessHoursEnd s) (businessHoursStart s)))
    (fun k =>
       let hour := GoInt.add (businessHoursStart s) k in
       Effects.bind (Effects.Intn 60)
         (fun minute =>
            let startTime := DateAt (Day now) hour minute in
            if startTime <? now
            then Effects.ret (startTime + 24 * hourNs)
            else Effects.ret startTime)).

End Sched.

(** ** Typer (internal/stealth/typing.go) *)

Module Typing.
Import Effects.
Local Open Scope go_scope.

Definition rune := Z.

(** A Go string as [range] reads it: its runes in order, each with the
    number of bytes it occupies, so that the index [range] yields for a rune
    is the sum of the widths before it. *)
Definition Text := list (rune * positive).

Record Typer := mkTyper {
  wpmMin : Z;
  wpmMax : Z;
  typoProbability : Q;
  pauseProbability : Q
}.

(** [NewTyper]: stores its arguments; it has no error result. *)
Definition NewTyper (wpmMin wpmMax : Z) (typoProbability pauseProbability : Q)
  : Typer :=
  mkTyper wpmMin wpmMax typoProbability pauseProbability.

(** The [time.Sleep] calls of [TypeText], by call site. *)
Inductive Pause :=
| BeforeChar        (* random pause before some characters *)
| AfterWrongChar    (* after the wrong character of a typo *)
| AfterBackspace    (* after the backspace that corrects it *)
| AfterChar         (* variable delay between characters *)
| AfterPunctuation  (* longer pause after punctuation *)
| BetweenWords.     (* pause between words *)

(** The calls [TypeText] issues. *)
Inductive Event :=
| Focus                      (* element.Focus() *)
| TypeWrong (c : rune)       (* page.Keyboard.Type(input.Key(wrongChar)) *)
| PressBackspace             (* page.Keyboard.Press(input.Backspace) *)
| TypeChar (c : rune)        (* page.Keyboard.Type(input.Key(char)) *)
| Sleep (p : Pause) (d : Z). (* time.Sleep(d), d in nanoseconds *)

Definition Millisecond : Z := 1000000.

(** [time.Duration(n) * time.Millisecond]. *)
Definition ms (n : Z) : Z := GoInt.mul n Millisecond.

Definition chars : list rune :=
  [97; 98; 99; 100; 101; 102; 103; 104; 105; 106; 107; 108; 109;
   110; 111; 112; 113; 114; 115; 116; 117; 118; 119; 120; 121; 122].

(** [getRandomChar]. *)
Definition getRandomChar : M Event rune :=
  k <- Intn (Z.of_nat (List.length chars)) ;;
  ret (nth (Z.to_nat k) chars 0).

Definition isPunctuation (c : rune) : bool :=
  (c =? 46) || (c =? 44) || (c =? 33) || (c =? 63).  (* . , ! ? *)

Definition isSpace (c : rune) : bool := c =? 32.

(** The random pause before a character (lines 44-48). *)
Definition prePause (t : Typer) : M Event unit :=
  p <- Float64 ;;
  if Qltb p (pauseProbability t) then
    n <- Intn 500 ;;
    emit (Sleep BeforeChar (ms (GoInt.add 200 n)))
  else ret tt.

(** The simulated typo (lines 50-60); [i] is the index [range] yields. *)
Definition typo (t : Typer) (msPerChar i : Z) : M Event unit :=
  q <- Float64 ;;
  if Qltb q (typoProbability t) && (0 <? i) then
    wrongChar <- getRandomChar ;;
    emit (TypeWrong wrongChar) ;;
    n1 <- Intn 100 ;;
    emit (Sleep AfterWrongChar (ms (GoInt.add msPerChar n1))) ;;
    emit PressBackspace ;;
    n2 <- Intn 100 ;;
    emit (Sleep AfterBackspace (ms (GoInt.add msPerChar n2)))
  else ret tt.

(** The correct character and the delays after it (lines 62-77). *)
Definition correctChar (msPerChar : Z) (char : rune) : M Event unit :=
  emit (TypeChar char) ;;
  n <- Intn (GoInt.quo msPerChar 2) ;;
  let delay := GoInt.sub (GoInt.add msPerChar n) (GoInt.quo msPerChar 4) in
  emit (Sleep AfterChar (ms delay)) ;;
  (if isPunctuation char then
     n <- Intn 300 ;; emit (Sleep AfterPunctuation (ms (GoInt.add 100 n)))
   else ret tt) ;;
  (if isSpace char then
     n <- Intn 150 ;; emit (Sleep BetweenWords (ms (GoInt.add 50 n)))
   else ret tt).

(** One iteration of [for i, char := range text]. *)
Definition typeChar (t : Typer) (msPerChar i : Z) (char : rune)
  : M Event unit :=
  prePause t ;;
  typo t msPerChar i ;;
  correctChar msPerChar char.

Fixpoint typeRunes (t : Typer) (msPerChar i : Z) (text : Text)
  : M Event unit :=
  match text with
  | [] => ret tt
  | (char, width) :: rest =>
      typeChar t msPerChar i char ;;
      typeRunes t msPerChar (i + Z.pos width) rest
  end.

(** [TypeText]; [element.Focus()] is taken to succeed. *)
Definition TypeText (t : Typer) (text : Text) : M Event error :=
  emit Focus ;;
  n <- Intn (GoInt.add (GoInt.sub (wpmMax t) (wpmMin t)) 1) ;;
  let wpm := GoInt.add (wpmMin t) n in
  let cpm := GoInt.mul wpm 5 in
  if cpm =? 0 then panic "integer divide by zero"
  else
    let msPerChar := GoInt.quo 60000 cpm in
    typeRunes t msPerChar 0 text ;;
    ret None.

(** An ASCII string as a [Text]: every rune occupies one byte. *)
Definition ascii_text (s : string) : Text :=
  map (fun a => (Z.of_N (Ascii.N_of_ascii a), 1%positive))
      (list_ascii_of_string s).



(** The pauses before a character all last between [lo] and [hi]
    milliseconds. *)
Definition prePauseWithin (lo hi : Z) (e : Event) : Prop :=
  match e with
  | Sleep BeforeChar d => lo * Millisecond <= d <= hi * Millisecond
  | _ => True
  end.

Definition prePausesWithin (lo hi : Z) (tr : list Event) : Prop :=
  Forall (prePauseWithin lo hi) tr.


(** The calls of [ClearAndType]: those that clear the field, then the
    calls of [TypeText]. *)
Inductive ClearEvent :=
| ClearFocus              (* element.Focus() *)
| PressControl            (* page.Keyboard.Press(input.ControlLeft) *)
| TypeKey (c : rune)      (* page.Keyboard.Type(input.Key('a')) *)
| ReleaseControl          (* page.Keyboard.Release(input.ControlLeft) *)
| ClearBackspace          (* page.Keyboard.Press(input.Backspace) *)
| ClearSleep (d : Z)      (* time.Sleep(d) *)
| Typed (e : Event).      (* a call of TypeText *)

(** [ClearAndType]; [element.Focus()] is taken to succeed. *)
Definition ClearAndType (t : Typer) (text : Text) : M ClearEvent error :=
  emit ClearFocus ;;
  emit PressControl ;;
  emit (TypeKey 97) ;;
  emit ReleaseControl ;;
  n1 <- Intn 100 ;;
  emit (ClearSleep (ms (GoInt.add 50 n1))) ;;
  emit ClearBackspace ;;
  n2 <- Intn 200 ;;
  emit (ClearSleep (ms (GoInt.add 100 n2))) ;;
  mapEvents Typed (TypeText t text).

(** A text field under the keyboard calls.  The field holds its text with
    the cursor at the end; Control-a selects the whole text; a character
    typed replaces the selection or is appended; a backspace deletes the
    selection or the last character. *)
Record Field := mkField {
  content : list rune;
  selected : bool;   (* the whole content is selected *)
  control : bool     (* the Control key is down *)
}.

Definition insertChar (f : Field) (c : rune) : Field :=
  mkField ((if selected f then [] else content f) ++ [c]) false (control f).

Definition backspace (f : Field) : Field :=
  mkField (if selected f then [] else removelast (content f)) false
          (control f).

Definition key (f : Field) (e : Event) : Field :=
  match e with
  | TypeWrong c | TypeChar c => insertChar f c
  | PressBackspace => backspace f
  | Focus | Sleep _ _ => f
  end.

Definition clearKey (f : Field) (e : ClearEvent) : Field :=
  match e with
  | PressControl => mkField (content f) (selected f) true
  | ReleaseControl => mkField (content f) (selected f) false
  | TypeKey c =>
      if control f && (c =? 97) then mkField (content f) true (control f)
      else insertChar f c
  | ClearBackspace => backspace f
  | Typed e => key f e
  | ClearFocus | ClearSleep _ => f
  end.

(** The field after the calls of a trace. *)
Definition replay (f : Field) (tr : list Event) : Field :=
  fold_left key tr f.

Definition replayClear (f : Field) (tr : list ClearEvent) : Field :=
  fold_left clearKey tr f.

(** [types l tr]: the calls of [tr] append [l] to a field with no
    selection, and leave it without one. *)
Definition types (l : list rune) (tr : list Event) : Prop :=
  forall c k, replay (mkField c false k) tr = mkField (c ++ l) false k.

(** A wrong character is a lowercase letter; the pauses after punctuation
    and between words have fixed ranges. *)
Definition typoIsLowercase (e : Event) : Prop :=
  match e with
  | TypeWrong c => 97 <= c <= 122
  | _ => True
  end.

Definition fixedPauses (e : Event) : Prop :=
  match e with
  | Sleep AfterPunctuation d => 100 * Millisecond <= d <= 399 * Millisecond
  | Sleep BetweenWords d => 50 * Millisecond <= d <= 199 * Millisecond
  | _ => True
  end.

Definition isWrong (e : Event) : bool :=
  match e with TypeWrong _ => true | _ => false end.

Definition isBackspace (e : Event) : bool :=
  match e with PressBackspace => true | _ => false end.

End Typing.

(** ** Scroller (package stealth, type [Scroller]) *)

Module Scrolling.
Import Effects.
Local Open Scope go_scope.

Record Scroller := mkScroller {
  speedMin : Z;
  speedMax : Z;
  scrollBackProbability : Q;
  pauseProbability : Q
}.

(** [NewScroller]: stores its arguments; it has no error result. *)
Definition NewScroller (speedMin speedMax : Z) (scrollBackProb pauseProb : Q)
  : Scroller :=
  mkScroller speedMin speedMax scrollBackProb pauseProb.

(** The two [page.Mouse.Scroll] call sites: the chunk itself, and the
    scroll back that may follow it. *)
Inductive Kind := Forward | Back.

(** The [time.Sleep] calls, by call site. *)
Inductive Pause :=
| BetweenScrolls   (* variable delay between scrolls *)
| RandomPause      (* random pause *)
| AfterScrollBack. (* after a scroll back *)

(** The calls the scroller issues: [page.Mouse.Scroll(0, float64(dy), steps)]
    and [time.Sleep(d)].  The conversion of [dy] to float64 is exact below
    2^53 and is not modelled. *)
Inductive Event :=
| MouseScroll (k : Kind) (dy : Z) (steps : Z)
| Sleep (p : Pause) (d : Z).

Definition Millisecond : Z := 1000000.
Definition ms (n : Z) : Z := GoInt.mul n Millisecond.

(** The delay and the random pause after a chunk, common to [ScrollDown]
    and [ScrollUp]. *)
Definition pace (s : Scroller) : M Event unit :=
  k <- Intn (GoInt.add (GoInt.sub (speedMax s) (speedMin s)) 1) ;;
  let speed := GoInt.add (speedMin s) k in
  emit (Sleep BetweenScrolls (ms speed)) ;;
  p <- Float64 ;;
  if Qltb p (pauseProbability s) then
    n <- Intn 1500 ;;
    emit (Sleep RandomPause (ms (GoInt.add 500 n)))
  else ret tt.

(** The scroll amount of a chunk:
    [chunkSize + s.rand.Intn(chunkSize/2) - chunkSize/4]. *)
Definition scrollAmount (chunkSize : Z) : M Event Z :=
  n <- Intn (GoInt.quo chunkSize 2) ;;
  ret (GoInt.sub (GoInt.add chunkSize n) (GoInt.quo chunkSize 4)).

(** The body of the loop of [ScrollDown]. *)
Definition scrollDownChunk (s : Scroller) (chunks chunkSize : Z)
  : M Event unit :=
  amount <- scrollAmount chunkSize ;;
  emit (MouseScroll Forward amount chunks) ;;
  pace s ;;
  q <- Float64 ;;
  if Qltb q (scrollBackProbability s) then
    scrollBack <- Intn (GoInt.quo amount 2) ;;
    emit (MouseScroll Back (GoInt.neg scrollBack) 1) ;;
    n <- Intn 300 ;;
    emit (Sleep AfterScrollBack (ms (GoInt.add 200 n)))
  else ret tt.

(** The body of the loop of [ScrollUp]. *)
Definition scrollUpChunk (s : Scroller) (chunks chunkSize : Z)
  : M Event unit :=
  amount <- scrollAmount chunkSize ;;
  emit (MouseScroll Forward (GoInt.neg amount) chunks) ;;
  pace s.

(** [for i := 0; i < n; i++ { body }]. *)
Fixpoint times {E} (n : nat) (body : M E unit) : M E unit :=
  match n with
  | O => ret tt
  | S n' => body ;; times n' body
  end.

(** [ScrollDown]; [chunks] is at least 5, so the division is defined. *)
Definition ScrollDown (s : Scroller) (distance : Z) : M Event error :=
  k <- Intn 10 ;;
  let chunks := GoInt.add 5 k in
  let chunkSize := GoInt.quo distance chunks in
  times (Z.to_nat chunks) (scrollDownChunk s chunks chunkSize) ;;
  ret None.

(** [ScrollUp]. *)
Definition ScrollUp (s : Scroller) (distance : Z) : M Event error :=
  k <- Intn 10 ;;
  let chunks := GoInt.add 5 k in
  let chunkSize := GoInt.quo distance chunks in
  times (Z.to_nat chunks) (scrollUpChunk s chunks chunkSize) ;;
  ret None.

(** [ScrollToElement], given what the page reports: the element's top in
    the document, the viewport height and the current scroll offset. *)
Definition ScrollToElement (s : Scroller) (yVal viewport currentScroll : Z)
  : M Event error :=
  let targetScroll := GoInt.sub yVal (GoInt.quo viewport 2) in
  let distance := GoInt.sub targetScroll currentScroll in
  if 0 <? distance then ScrollDown s distance
  else if distance <? 0 then ScrollUp s (GoInt.neg distance)
  else ret None.

(** [ScrollToBottom] and [ScrollToTop], given the page height and the
    current scroll offset. *)
Definition ScrollToBottom (s : Scroller) (pageHeight currentScroll : Z)
  : M Event error :=
  ScrollDown s (GoInt.sub pageHeight currentScroll).

Definition ScrollToTop (s : Scroller) (currentScroll : Z) : M Event error :=
  ScrollUp s currentScroll.

(** The deltas of the chunks of a trace, scroll backs left out. *)
Definition forwardDeltas (tr : list Event) : list Z :=
  flat_map (fun e => match e with
                     | MouseScroll Forward dy _ => [dy]
                     | _ => []
                     end) tr.

Definition sum (l : list Z) : Z := fold_right Z.add 0 l.

(** The message of the panic of [rand.Intn]. *)
Definition IntnPanic : string := "invalid argument to Intn".

(** The deltas of a chunk size: between [chunkSize - chunkSize/4] and
    [chunkSize + chunkSize/2 - 1 - chunkSize/4]. *)
Definition deltaWithin (chunkSize d : Z) : Prop :=
  chunkSize - chunkSize / 4 <= d
  /\ d <= chunkSize + chunkSize / 2 - 1 - chunkSize / 4.

(** A scroller whose delay range can be drawn from. *)
Definition speedsValid (s : Scroller) : Prop :=
  0 <= speedMin s /\ speedMin s <= speedMax s /\ speedMax s < 2 ^ 62.

(** [RandomScroll]. *)
Definition RandomScroll (s : Scroller) : M Event error :=
  p <- Float64 ;;
  if Qltb p (1 # 2) then
    n <- Intn 500 ;;
    ScrollDown s (GoInt.add 200 n)
  else
    n <- Intn 300 ;;
    ScrollUp s (GoInt.add 100 n).

(** All the deltas of a trace, scroll backs included. *)
Definition allDeltas (tr : list Event) : list Z :=
  flat_map (fun e => match e with
                     | MouseScroll _ dy _ => [dy]
                     | Sleep _ _ => []
                     end) tr.

(** The pauses of the scroller lie in their ranges. *)
Definition paced (s : Scroller) (e : Event) : Prop :=
  match e with
  | Sleep BetweenScrolls d =>
      speedMin s * Millisecond <= d <= speedMax s * Millisecond
  | Sleep RandomPause d => 500 * Millisecond <= d <= 1999 * Millisecond
  | Sleep AfterScrollBack d => 200 * Millisecond <= d <= 499 * Millisecond
  | MouseScroll Back dy steps => dy <= 0 /\ steps = 1
  | MouseScroll Forward _ steps => 5 <= steps <= 14
  end.

(** What a chunk with its scroll back advances: more than half of its
    delta, and at most its delta. *)
Definition advances (t : list Event) : Prop :=
  sum (forwardDeltas t) + 1 <= 2 * sum (allDeltas t)
  /\ sum (allDeltas t) <= sum (forwardDeltas t).

End Scrolling.

(** ** Mouse mover (package stealth, type [MouseMover]) *)

(** Coordinates are real numbers: float64 arithmetic on them is read as
    exact, with [math.Sqrt], [math.Cos], [math.Sin] and [math.Pi] as the
    real functions and constant.  Probabilities, the speed variation and
    the draws of [Float64] are rationals, so that what the mover decides,
    and how long it sleeps, is computed. *)

Module Mouse.
Import Effects.
Local Open Scope go_scope.

Record Point := mkPoint { X : R; Y : R }.

Record MouseMover := mkMouseMover {
  bezierPoints : Z;
  speedVariation : Q;
  overshootProb : Q;
  microCorrectionProb : Q
}.

(** [NewMouseMover]: stores its arguments; it has no error result. *)
Definition NewMouseMover (bezierPoints : Z)
  (speedVariation overshootProb microCorrectionProb : Q) : MouseMover :=
  mkMouseMover bezierPoints speedVariation overshootProb microCorrectionProb.

(** The two [page.Mouse.MoveAlong] call sites of [moveToPoint]: a point of
    the path, and the micro-correction after it. *)
Inductive Origin := PathPoint | Correction.

(** The two [time.Sleep] call sites of [moveToPoint]. *)
Inductive Pause :=
| HalfDelay  (* time.Sleep(delay / 2), after a micro-correction *)
| StepDelay. (* time.Sleep(delay), at the end of every step *)

Inductive Event :=
| MoveAlong (o : Origin) (p : Point)
| Sleep (k : Pause) (d : Z).

Definition Millisecond : Z := 1000000.
Definition ms (n : Z) : Z := GoInt.mul n Millisecond.

(** [math.Pow(x, float64(e))] for an integer [e]. *)
Definition Pow (x : R) (e : Z) : R := powerRZ x e.

(** [math.Atan2(y, x)]; [Atan2(0, 0)] is 0. *)
Definition Atan2 (y x : R) : R :=
  (if Rlt_dec 0 x then atan (y / x)
   else if Rlt_dec x 0 then
     if Rle_dec 0 y then atan (y / x) + PI else atan (y / x) - PI
   else if Rlt_dec 0 y then PI / 2
   else if Rlt_dec y 0 then - PI / 2
   else 0)%R.

(** [int(q)] for a float64 [q]: truncation towards zero. *)
Definition truncate (q : Q) : Z := Qnum q ÷ Z.pos (Qden q).

Definition zeroPoint : Point := mkPoint 0 0.

(** [make([]Point, n)]. *)
Definition make {E} (n : Z) : M E (list Point) :=
  if n <? 0 then panic "makeslice: len out of range"
  else ret (repeat zeroPoint (Z.to_nat n)).

Fixpoint update {A} (l : list A) (i : nat) (a : A) : list A :=
  match l, i with
  | [], _ => []
  | _ :: l', O => a :: l'
  | b :: l', S i' => b :: update l' i' a
  end.

(** [s[i] = p]. *)
Definition store {E} (s : list Point) (i : Z) (p : Point)
  : M E (list Point) :=
  if (i <? 0) || (Z.of_nat (List.length s) <=? i)
  then panic "index out of range"
  else ret (update s (Z.to_nat i) p).

(** [binomialCoefficient]: the loop runs [i] from 0 to [k - 1]. *)
Fixpoint binomialLoop (n : Z) (iterations : nat) (i : Z) (result : R) : R :=
  match iterations with
  | O => result
  | S iterations' =>
      binomialLoop n iterations' (i + 1)
        (result * IZR (n - i) / IZR (i + 1))%R
  end.

Definition binomialCoefficient (n k : Z) : R :=
  if n <? k then 0%R
  else if (k =? 0) || (k =? n) then 1%R
  else binomialLoop n (Z.to_nat k) 0 1%R.

(** [bezierPoint]: [i] runs over the indices of [controlPoints].  The sum
    is the exact one; the sum the code computes is rounded at every
    operation ([Curve64] below) and agrees with it at t = 0 and t = 1,
    where the weights are exactly 1 and 0. *)
Definition bezierTerm (controlPoints : list Point) (t : R)
  (acc : R * R) (i : nat) : R * R :=
  let n := Z.of_nat (List.length controlPoints) - 1 in
  let coefficient :=
    (binomialCoefficient n (Z.of_nat i)
     * Pow (1 - t) (n - Z.of_nat i) * Pow t (Z.of_nat i))%R in
  (fst acc + coefficient * X (nth i controlPoints zeroPoint),
   snd acc + coefficient * Y (nth i controlPoints zeroPoint))%R.

Definition bezierPoint (controlPoints : list Point) (t : R) : Point :=
  let xy := fold_left (bezierTerm controlPoints t)
                      (seq 0 (List.length controlPoints)) (0%R, 0%R) in
  mkPoint (fst xy) (snd xy).

(** The body of the first loop of [generateBezierPath]: the control point
    of index [i]. *)
Definition controlPoint (m : MouseMover) (start end_ : Point) (i : Z)
  : M Event Point :=
  let t := (IZR i / IZR (bezierPoints m - 1))%R in
  let x := (X start + (X end_ - X start) * t)%R in
  let y := (Y start + (Y end_ - Y start) * t)%R in
  let distance :=
    sqrt (Pow (X end_ - X start) 2 + Pow (Y end_ - Y start) 2) in
  let maxOffset := (distance * (2 / 10))%R in
  r <- Float64 ;;
  let offset := ((Q2R r * 2 - 1) * maxOffset)%R in
  let angle := (Atan2 (Y end_ - Y start) (X end_ - X start) + PI / 2)%R in
  ret (mkPoint (x + offset * cos angle) (y + offset * sin angle)).

Fixpoint controlLoop (m : MouseMover) (start end_ : Point)
  (iterations : nat) (i : Z) (controlPoints : list Point)
  : M Event (list Point) :=
  match iterations with
  | O => ret controlPoints
  | S iterations' =>
      p <- controlPoint m start end_ i ;;
      controlPoints' <- store controlPoints i p ;;
      controlLoop m start end_ iterations' (i + 1) controlPoints'
  end.

(** [generateBezierPath]. *)
Definition generateBezierPath (m : MouseMover) (start end_ : Point)
  : M Event (list Point) :=
  cp0 <- make (bezierPoints m) ;;
  cp1 <- store cp0 0 start ;;
  cp2 <- store cp1 (bezierPoints m - 1) end_ ;;
  controlPoints <-
    controlLoop m start end_ (Z.to_nat (bezierPoints m - 2)) 1 cp2 ;;
  k <- Intn 30 ;;
  let numPoints := 20 + k in
  ret (map (fun i => bezierPoint controlPoints
                       (IZR (Z.of_nat i) / IZR (numPoints - 1))%R)
           (seq 0 (Z.to_nat numPoints))).


(** Its second part (lines 130-139): the points sampled on the curve. *)
Definition samplePath (controlPoints : list Point) : M Event (list Point) :=
  k <- Intn 30 ;;
  let numPoints := 20 + k in
  ret (map (fun i => bezierPoint controlPoints
                       (IZR (Z.of_nat i) / IZR (numPoints - 1))%R)
           (seq 0 (Z.to_nat numPoints))).
(** [generateOvershoot], in exact arithmetic: the distance drawn is below
    40 here, and can round to 40 in float64. *)
Definition generateOvershoot (target : Point) : M Event (list Point) :=
  d <- Float64 ;;
  let overshootDistance := (10 + Q2R d * 30)%R in
  a <- Float64 ;;
  let angle := (Q2R a * 2 * PI)%R in
  ret [ mkPoint (X target + overshootDistance * cos angle)
                (Y target + overshootDistance * sin angle);
        target ].

(** The delay of a step, from the two draws that decide it. *)
Definition stepDelay (m : MouseMover) (b : Z) (v : Q) : Z :=
  let baseDelay := 5 + b in
  let variation :=
    truncate (inject_Z baseDelay * speedVariation m * (v * 2 - 1)) in
  ms (GoInt.add baseDelay variation).

(** The micro-correction of a point, from the two draws that place it. *)
Definition correctionOf (point : Point) (jx jy : Q) : Point :=
  mkPoint (X point + (Q2R jx * 4 - 2)) (Y point + (Q2R jy * 4 - 2)).

(** The body of the loop of [moveToPoint], for the point of index [i] of a
    path of [len] points.  The draw of the micro-correction test is only
    made when the two index tests before it hold. *)
Definition moveStep (m : MouseMover) (len i : Z) (point : Point)
  : M Event unit :=
  b <- Intn 10 ;;
  v <- Float64 ;;
  let delay := stepDelay m b v in
  emit (MoveAlong PathPoint point) ;;
  (if (0 <? i) && (i <? len - 1) then
     c <- Float64 ;;
     if Qltb c (microCorrectionProb m) then
       jx <- Float64 ;;
       jy <- Float64 ;;
       emit (MoveAlong Correction (correctionOf point jx jy)) ;;
       emit (Sleep HalfDelay (GoInt.quo delay 2))
     else ret tt
   else ret tt) ;;
  emit (Sleep StepDelay delay).

(** [for i, point := range path]. *)
Fixpoint moveAlong (m : MouseMover) (len i : Z) (path : list Point)
  : M Event unit :=
  match path with
  | [] => ret tt
  | point :: rest =>
      moveStep m len i point ;;
      moveAlong m len (i + 1) rest
  end.

(** The path [moveToPoint] walks: the curve, and the overshoot after it
    when the draw says so. *)
Definition pathWithOvershoot (m : MouseMover) (start end_ : Point)
  : M Event (list Point) :=
  path <- generateBezierPath m start end_ ;;
  o <- Float64 ;;
  if Qltb o (overshootProb m) then
    overshoot <- generateOvershoot end_ ;;
    ret (path ++ overshoot)
  else ret path.

(** [moveToPoint]. *)
Definition moveToPoint (m : MouseMover) (start end_ : Point)
  : M Event error :=
  path <- pathWithOvershoot m start end_ ;;
  moveAlong m (Z.of_nat (List.length path)) 0 path ;;
  ret None.




(** Observations of a trace. *)


(** Every sleep lasts between 0 and 28 milliseconds. *)
Definition briefSleep (e : Event) : Prop :=
  match e with
  | Sleep _ d => 0 <= d <= 28 * Millisecond
  | MoveAlong _ _ => True
  end.







(** Building the path issues no call, whether it returns or panics. *)
Definition silent {A} (m : M Event A) : Prop := always m (fun _ => False).







End Mouse.

(** ** The curve in binary64 *)

Module Curve64.
Import Stdlib.Floats.Floats.

(** The operations are those of IEEE 754 binary64 with rounding to nearest,
    ties to even, each rounded by itself, as the amd64 compiler emits them
    (no fused multiply-add). *)

Record Point := mkPoint { X : float; Y : float }.

(** [float64(i)] for an [int] below 2^63 in absolute value. *)
Definition ofInt (i : Z) : float :=
  if i <? 0 then PrimFloat.opp (PrimFloat.of_uint63 (Uint63.of_Z (- i)))
  else PrimFloat.of_uint63 (Uint63.of_Z i).

(** [math.Pow(x, float64(y))] for an [int] [y], where the special cases
    the library documents decide, in its order: Pow(x, 0) = 1, Pow(1, y) = 1,
    Pow(x, 1) = x, Pow(NaN, y) = NaN, Pow(0, y) = 0 for y > 0 (with the sign
    of x when y is odd).  [None] everywhere else: the general case of the
    library is not in this repository and is not modelled. *)
Definition Pow (x : float) (y : Z) : option float :=
  if y =? 0 then Some 1%float
  else if PrimFloat.eqb x 1 then Some 1%float
  else if y =? 1 then Some x
  else if PrimFloat.is_nan x then Some x
  else if PrimFloat.eqb x 0 && (0 <? y) then
    Some (if Z.odd y then x else 0%float)
  else None.

(** [binomialCoefficient]. *)
Fixpoint binomialLoop (n : Z) (iterations : nat) (i : Z) (result : float)
  : float :=
  match iterations with
  | O => result
  | S iterations' =>
      binomialLoop n iterations' (i + 1)
        (PrimFloat.div (PrimFloat.mul result (ofInt (n - i))) (ofInt (i + 1)))
  end.

Definition binomialCoefficient (n k : Z) : float :=
  if n <? k then 0%float
  else if (k =? 0) || (k =? n) then 1%float
  else binomialLoop n (Z.to_nat k) 0 1%float.

Definition zeroPoint : Point := mkPoint 0 0.

(** [bezierPoint]; [None] when a call of [Pow] is outside its documented
    special cases. *)
Definition bezierTerm (controlPoints : list Point) (t : float)
  (acc : option (float * float)) (i : nat) : option (float * float) :=
  let n := Z.of_nat (List.length controlPoints) - 1 in
  match acc, Pow (PrimFloat.sub 1 t) (n - Z.of_nat i), Pow t (Z.of_nat i) with
  | Some (x, y), Some p, Some q =>
      let coefficient :=
        PrimFloat.mul (PrimFloat.mul (binomialCoefficient n (Z.of_nat i)) p)
                      q in
      Some (PrimFloat.add x (PrimFloat.mul coefficient
                               (X (nth i controlPoints zeroPoint))),
            PrimFloat.add y (PrimFloat.mul coefficient
                               (Y (nth i controlPoints zeroPoint))))
  | _, _, _ => None
  end.

Definition bezierPoint (controlPoints : list Point) (t : float)
  : option Point :=
  match fold_left (bezierTerm controlPoints t)
                  (seq 0 (List.length controlPoints))
                  (Some (0%float, 0%float)) with
  | Some (x, y) => Some (mkPoint x y)
  | None => None
  end.

(** The last loop of [generateBezierPath] (lines 134-137), for
    [numPoints] points. *)
Definition samplePath (controlPoints : list Point) (numPoints : Z)
  : list (option Point) :=
  map (fun i => bezierPoint controlPoints
                  (PrimFloat.div (ofInt (Z.of_nat i)) (ofInt (numPoints - 1))))
      (seq 0 (Z.to_nat numPoints)).
End Curve64.

(** ** Timing controller (internal/stealth/timing.go) *)

Module Timing.

Record TimingController := mkTimingController {
  actionDelayMin : Z;
  actionDelayMax : Z;
  thinkTimeMin : Z;
  thinkTimeMax : Z;
  readingSpeedWPM : Z
}.

(** [NewTimingController]: stores its arguments; it has no error result. *)
Definition NewTimingController
  (actionDelayMin actionDelayMax thinkTimeMin thinkTimeMax readingSpeedWPM : Z)
  : TimingController :=
  mkTimingController actionDelayMin actionDelayMax thinkTimeMin thinkTimeMax
    readingSpeedWPM.

Import Effects.
Local Open Scope go_scope.

Definition Millisecond : Z := 1000000.
Definition Second : Z := 1000000000.

(** [ActionDelay]. *)
Definition ActionDelay {E} (t : TimingController) : M E Z :=
  n <- Intn (GoInt.add (GoInt.sub (actionDelayMax t) (actionDelayMin t)) 1) ;;
  let delay := GoInt.add (actionDelayMin t) n in
  ret (GoInt.mul delay Second).

(** [ThinkTime]. *)
Definition ThinkTime {E} (t : TimingController) : M E Z :=
  n <- Intn (GoInt.add (GoInt.sub (thinkTimeMax t) (thinkTimeMin t)) 1) ;;
  let delay := GoInt.add (thinkTimeMin t) n in
  ret (GoInt.mul delay Second).

(** [ReadingTime].  The float64 operations are read as exact: the real
    product can differ from this one in its last bits, and so the result by
    one second when the product is next to a whole number; a reading speed
    of 0 (an infinity or a NaN in Go) is outside this reading. *)
Definition ReadingTime {E} (t : TimingController) (wordCount : Z) : M E Z :=
  if wordCount =? 0 then ret 0
  else
    let minutes := (inject_Z wordCount / inject_Z (readingSpeedWPM t))%Q in
    let seconds := (minutes * 60)%Q in
    let variation := (2 # 10)%Q in
    r <- Float64 ;;
    let factor := (1 + (r * 2 - 1) * variation)%Q in
    ret (GoInt.mul (Mouse.truncate (seconds * factor)%Q) Second).

(** [ShortPause], [MediumPause], [LongPause]. *)
Definition ShortPause {E} : M E Z :=
  n <- Intn 700 ;; ret (GoInt.mul (GoInt.add 300 n) Millisecond).

Definition MediumPause {E} : M E Z :=
  n <- Intn 2000 ;; ret (GoInt.mul (GoInt.add 1000 n) Millisecond).

Definition LongPause {E} : M E Z :=
  n <- Intn 5000 ;; ret (GoInt.mul (GoInt.add 3000 n) Millisecond).

(** [RandomPause]. *)
Definition RandomPause {E} : M E Z :=
  pauseType <- Intn 3 ;;
  if pauseType =? 0 then ShortPause
  else if pauseType =? 1 then MediumPause
  else LongPause.

End Timing.

(** ** Configuration (internal/config/config.go) *)

Module Config.
Import Effects.

Record Filters := mkFilters {
  JobTitles : list string;
  Companies : list string;
  Locations : list string;
  Keywords : list string
}.

Record SearchConfig := mkSearchConfig {
  MaxResults : Z;
  PaginationDelayMin : Z;
  PaginationDelayMax : Z;
  SearchFilters : Filters
}.

Record ConnectionsConfig := mkConnectionsConfig {
  ConnectionsDailyLimit : Z;
  ConnectionsHourlyLimit : Z;
  NoteTemplates : list string;
  NoteCharacterLimit : Z;
  CooldownBetweenRequestsMin : Z;
  CooldownBetweenRequestsMax : Z
}.

Record MessagingConfig := mkMessagingConfig {
  MessagingDailyLimit : Z;
  MessagingHourlyLimit : Z;
  Templates : list string;
  CooldownBetweenMessagesMin : Z;
  CooldownBetweenMessagesMax : Z
}.

Record MouseConfig := mkMouseConfig {
  BezierPoints : Z;
  SpeedVariation : Q;
  OvershootProbability : Q;
  MicroCorrectionProbability : Q
}.

Record TimingConfig := mkTimingConfig {
  ActionDelayMin : Z;
  ActionDelayMax : Z;
  ThinkTimeMin : Z;
  ThinkTimeMax : Z;
  ReadingSpeedWPM : Z
}.

Record TypingConfig := mkTypingConfig {
  WPMMin : Z;
  WPMMax : Z;
  TypoProbability : Q;
  TypingPauseProbability : Q
}.

Record ScrollingConfig := mkScrollingConfig {
  SpeedMin : Z;
  SpeedMax : Z;
  ScrollBackProbability : Q;
  ScrollingPauseProbability : Q
}.

Record SchedulingConfig := mkSchedulingConfig {
  BusinessHoursStart : Z;
  BusinessHoursEnd : Z;
  Timezone : string;
  WeekendActivity : bool;
  BreakDurationMin : Z;
  BreakDurationMax : Z;
  BreakProbability : Q
}.

Record StealthConfig := mkStealthConfig {
  Mouse : MouseConfig;
  Timing : TimingConfig;
  Typing : TypingConfig;
  Scrolling : ScrollingConfig;
  Scheduling : SchedulingConfig
}.

Record BrowserConfig := mkBrowserConfig {
  Headless : bool;
  UserAgents : list string;
  ViewportWidths : list Z;
  ViewportHeights : list Z;
  TimeoutSeconds : Z
}.

Record LoggingConfig := mkLoggingConfig {
  Level : string;
  Format : string;
  Output : string
}.

Record Config := mkConfig {
  Search : SearchConfig;
  Connections : ConnectionsConfig;
  Messaging : MessagingConfig;
  Stealth : StealthConfig;
  Browser : BrowserConfig;
  Logging : LoggingConfig
}.

Section Validation.

Variable LoadLocation : string -> Sched.Location + string.

(** [validateConfig]. *)
Definition validateConfig (config : Config) : error :=
  if MaxResults (Search config) <=? 0 then
    Some "search.max_results must be greater than 0"%string
  else if ConnectionsDailyLimit (Connections config) <=? 0 then
    Some "connections.daily_limit must be greater than 0"%string
  else if MessagingDailyLimit (Messaging config) <=? 0 then
    Some "messaging.daily_limit must be greater than 0"%string
  else if TimeoutSeconds (Browser config) <=? 0 then
    Some "browser.timeout_seconds must be greater than 0"%string
  else if Nat.eqb (List.length (UserAgents (Browser config))) 0 then
    Some "browser.user_agents must contain at least one user agent"%string
  else
    match LoadLocation (Timezone (Scheduling (Stealth config))) with
    | inr err => Some ("invalid timezone: " ++ err)%string
    | inl _ => None
    end.

(** [LoadConfig], given what its environment delivers: the result of
    [os.ReadFile(configPath)], the result of [yaml.Unmarshal] on the data
    read, and [os.Getenv]. *)
Variable ReadFile : string + string.
Variable Unmarshal : string -> Config + string.
Variable Getenv : string -> string.

Definition withLevel (c : Config) (level : string) : Config :=
  mkConfig (Search c) (Connections c) (Messaging c) (Stealth c) (Browser c)
           (mkLoggingConfig level (Format (Logging c)) (Output (Logging c))).

Definition withHeadless (c : Config) : Config :=
  mkConfig (Search c) (Connections c) (Messaging c) (Stealth c)
           (mkBrowserConfig true (UserAgents (Browser c))
              (ViewportWidths (Browser c)) (ViewportHeights (Browser c))
              (TimeoutSeconds (Browser c)))
           (Logging c).

Definition LoadConfig : Config + string :=
  match ReadFile with
  | inr err => inr ("failed to read config file: " ++ err)%string
  | inl data =>
      match Unmarshal data with
      | inr err => inr ("failed to parse config file: " ++ err)%string
      | inl config =>
          let config :=
            if (Getenv "LOG_LEVEL" =? "")%string then config
            else withLevel config (Getenv "LOG_LEVEL") in
          let config :=
            if (Getenv "HEADLESS_MODE" =? "true")%string
            then withHeadless config else config in
          match validateConfig config with
          | Some err => inr ("invalid configuration: " ++ err)%string
          | None => inl config
          end
      end
  end.

End Validation.

(** The validity of a profile as the specification words it: every
    probability (and the speed variation) in [0, 1], every minimum at most
    its maximum, and a zone identifier that resolves. *)
Definition unitInterval (p : Q) : bool := Qle_bool 0 p && Qle_bool p 1.

Definition profileValid_spec (LoadLocation : string -> Sched.Location + string)
  (c : StealthConfig) : bool :=
  unitInterval (SpeedVariation (Mouse c))
  && unitInterval (OvershootProbability (Mouse c))
  && unitInterval (MicroCorrectionProbability (Mouse c))
  && unitInterval (TypoProbability (Typing c))
  && unitInterval (TypingPauseProbability (Typing c))
  && unitInterval (ScrollBackProbability (Scrolling c))
  && unitInterval (ScrollingPauseProbability (Scrolling c))
  && unitInterval (BreakProbability (Scheduling c))
  && (WPMMin (Typing c) <=? WPMMax (Typing c))
  && (SpeedMin (Scrolling c) <=? SpeedMax (Scrolling c))
  && (BreakDurationMin (Scheduling c) <=? BreakDurationMax (Scheduling c))
  && match LoadLocation (Timezone (Scheduling c)) with
     | inl _ => true
     | inr _ => false
     end.

End Config.

(** ** Construction of the components (main.go, "Initialize stealth
    controllers") *)

Module Main.
Import Config.

Record Components := mkComponents {
  timing : Timing.TimingController;
  typer : Typing.Typer;
  mouse : Mouse.MouseMover;
  scroller : Scrolling.Scroller;
  scheduler : Sched.Scheduler
}.

Section Construction.

Variable LoadLocation : string -> Sched.Location + string.

(** The five constructor calls of [main], in order; the error of
    [NewScheduler] is the one [logger.Fatalf] reports. *)
Definition initStealth (cfg : StealthConfig) : Components + string :=
  let timing :=
    Timing.NewTimingController
      (ActionDelayMin (Timing cfg)) (ActionDelayMax (Timing cfg))
      (ThinkTimeMin (Timing cfg)) (ThinkTimeMax (Timing cfg))
      (ReadingSpeedWPM (Timing cfg)) in
  let typer :=
    Typing.NewTyper
      (WPMMin (Typing cfg)) (WPMMax (Typing cfg))
      (TypoProbability (Typing cfg)) (TypingPauseProbability (Typing cfg)) in
  let mouse :=
    Mouse.NewMouseMover
      (BezierPoints (Mouse cfg)) (SpeedVariation (Mouse cfg))
      (OvershootProbability (Mouse cfg))
      (MicroCorrectionProbability (Mouse cfg)) in
  let scroller :=
    Scrolling.NewScroller
      (SpeedMin (Scrolling cfg)) (SpeedMax (Scrolling cfg))
      (ScrollBackProbability (Scrolling cfg))
      (ScrollingPauseProbability (Scrolling cfg)) in
  match Sched.NewScheduler LoadLocation
          (BusinessHoursStart (Scheduling cfg))
          (BusinessHoursEnd (Scheduling cfg))
          (Timezone (Scheduling cfg))
          (WeekendActivity (Scheduling cfg))
          (BreakDurationMin (Scheduling cfg))
          (BreakDurationMax (Scheduling cfg))
          (BreakProbability (Scheduling cfg)) with
  | inr err => inr ("Failed to initialize scheduler: " ++ err)%string
  | inl scheduler => inl (mkComponents timing typer mouse scroller scheduler)
  end.

(** [config.LoadConfig] on a parsed file, then the constructors: what
    [main] does with a configuration.  The steps of [main] in between
    (logger, credentials, database, browser) do not read the profile and
    are left out. *)
Definition loadAndInit (config : Config) : Components + string :=
  match validateConfig LoadLocation config with
  | Some err => inr ("invalid configuration: " ++ err)%string
  | None => initStealth (Stealth config)
  end.

End Construction.

(** A configuration with a typo probability of 2, a pause probability of
    -1, wpmMin above wpmMax, speedMin above speedMax and the minimal break
    above the maximal one, in the zone UTC. *)
Definition invertedStealth : StealthConfig :=
  mkStealthConfig
    (mkMouseConfig 5 (3 # 10) (1 # 10) (1 # 5))
    (mkTimingConfig 2 5 1 3 250)
    (mkTypingConfig 100 50 2 (- (1))%Q)
    (mkScrollingConfig 300 100 (1 # 10) (1 # 5))
    (mkSchedulingConfig 9 17 "UTC" false 15 5 (1 # 10)).

Definition invertedConfig : Config :=
  mkConfig
    (mkSearchConfig 100 2 5 (mkFilters [] [] [] []))
    (mkConnectionsConfig 20 5 [] 300 30 90)
    (mkMessagingConfig 20 5 [] 30 90)
    invertedStealth
    (mkBrowserConfig false ["Mozilla/5.0"%string] [1920] [1080] 30)
    (mkLoggingConfig "info" "json" "stdout").

End Main.

(** ** Fingerprint masker (package stealth, type [FingerprintMasker]) *)

Module Fingerprint.
Import Effects.
Local Open Scope go_scope.

Record FingerprintMasker := mkFingerprintMasker {
  userAgents : list string;
  viewportWidths : list Z;
  viewportHeights : list Z
}.

(** [NewFingerprintMasker]. *)
Definition NewFingerprintMasker (userAgents : list string)
  (viewportWidths viewportHeights : list Z) : FingerprintMasker :=
  mkFingerprintMasker userAgents viewportWidths viewportHeights.

Definition defaultUserAgent : string :=
  "Mozilla/5.0 (Windows NT 10.0; Win64; x64) AppleWebKit/537.36 (KHTML, like Gecko) Chrome/120.0.0.0 Safari/537.36".

(** [s[i]] for an index that [Intn(len(s))] delivers. *)
Definition index {E A} (s : list A) (i : Z) (zero : A) : M E A :=
  if (i <? 0) || (Z.of_nat (List.length s) <=? i)
  then panic "index out of range"
  else ret (nth (Z.to_nat i) s zero).

(** [GetRandomUserAgent]. *)
Definition GetRandomUserAgent {E} (f : FingerprintMasker) : M E string :=
  if Nat.eqb (List.length (userAgents f)) 0 then ret defaultUserAgent
  else
    i <- Intn (Z.of_nat (List.length (userAgents f))) ;;
    index (userAgents f) i EmptyString.

(** [GetRandomViewport]. *)
Definition GetRandomViewport {E} (f : FingerprintMasker) : M E (Z * Z) :=
  i <- Intn (Z.of_nat (List.length (viewportWidths f))) ;;
  width <- index (viewportWidths f) i 0 ;;
  j <- Intn (Z.of_nat (List.length (viewportHeights f))) ;;
  height <- index (viewportHeights f) j 0 ;;
  ret (width, height).

(** The masker [main] builds from a configuration. *)
Definition ofConfig (c : Config.Config) : FingerprintMasker :=
  NewFingerprintMasker (Config.UserAgents (Config.Browser c))
    (Config.ViewportWidths (Config.Browser c))
    (Config.ViewportHeights (Config.Browser c)).

End Fingerprint.

(** ** Connection notes and messages (internal/connections,
    internal/messaging) *)

Module Notes.
Import Stdlib.Strings.Ascii.
Import Effects.
Local Open Scope go_scope.
Local Open Scope string_scope.

(** [strings.Split(s, " ")[0]]: the bytes before the first space. *)
Fixpoint firstField (s : string) : string :=
  match s with
  | EmptyString => EmptyString
  | String c rest =>
      if Ascii.eqb c " "%char then EmptyString else String c (firstField rest)
  end.

(** [strings.ReplaceAll(s, old, new)] for a pattern [old] that is not
    empty, as at its call sites: the occurrences of [old] are replaced from
    the left, without overlap.  [skip] counts the bytes of an occurrence
    still to be passed over. *)
Fixpoint replaceFrom (old new : string) (skip : nat) (s : string) : string :=
  match s with
  | EmptyString => EmptyString
  | String c rest =>
      match skip with
      | S skip' => replaceFrom old new skip' rest
      | O =>
          if String.prefix old s
          then new ++ replaceFrom old new (String.length old - 1) rest
          else String c (replaceFrom old new O rest)
      end
  end.

Definition ReplaceAll (s old new : string) : string :=
  replaceFrom old new O s.

(** [s[:n]]. *)
Definition sliceTo {E} (s : string) (n : Z) : M E string :=
  if ((n <? 0) || (Z.of_nat (String.length s) <? n))%Z
  then panic "slice bounds out of range"
  else ret (String.substring 0 (Z.to_nat n) s).

(** The substitution of the three variables of a template. *)
Definition fill (template profileName jobTitle company : string) : string :=
  let firstName := firstField profileName in
  let note := ReplaceAll template "{{firstName}}" firstName in
  let note := ReplaceAll note "{{jobTitle}}" jobTitle in
  ReplaceAll note "{{company}}" company.

(** [ConnectionManager.generateNote]. *)
Definition generateNote {E} (config : Config.ConnectionsConfig)
  (profileName jobTitle company : string) : M E string :=
  if Nat.eqb (List.length (Config.NoteTemplates config)) 0 then ret ""
  else
    i <- Intn (Z.of_nat (List.length (Config.NoteTemplates config))) ;;
    template <- Fingerprint.index (Config.NoteTemplates config) i "" ;;
    let note := fill template profileName jobTitle company in
    if (Config.NoteCharacterLimit config <? Z.of_nat (String.length note))%Z
    then
      head <- sliceTo note (GoInt.sub (Config.NoteCharacterLimit config) 3) ;;
      ret (head ++ "...")
    else ret note.

(** [MessageManager.generateMessage]. *)
Definition generateMessage {E} (config : Config.MessagingConfig)
  (profileName jobTitle company : string) : M E string :=
  if Nat.eqb (List.length (Config.Templates config)) 0
  then ret "Thanks for connecting!"
  else
    i <- Intn (Z.of_nat (List.length (Config.Templates config))) ;;
    template <- Fingerprint.index (Config.Templates config) i "" ;;
    ret (fill template profileName jobTitle company).

End Notes.

(** * Part II: properties *)

(** *** Go integers *)

Module GoIntFacts.
Import GoInt.

Lemma wrap64_small z : inRange z -> wrap64 z = z.
Proof.
  unfold inRange, wrap64. intros H.
  rewrite Z.mod_small; lia.
Qed.

Lemma wrap64_range z : inRange (wrap64 z).
Proof.
  unfold inRange, wrap64.
  pose proof (Z.mod_pos_bound (z + 2 ^ 63) (2 ^ 64) ltac:(lia)). lia.
Qed.

End GoIntFacts.

(** *** Reasoning about runs *)

Module EffectsFacts.
Import Effects.
Local Open Scope go_scope.

Lemma returns_ret {E A} (a : A) (post : A -> list E -> Prop) :
  post a [] -> returns (ret a) post.
Proof. intros H r. exists a, r, []. now split. Qed.

Lemma returns_emit {E} (e : E) (post : unit -> list E -> Prop) :
  post tt [e] -> returns (emit e) post.
Proof. intros H r. exists tt, r, [e]. now split. Qed.

Lemma returns_bind {E A B} (m : M E A) (f : A -> M E B) mid post :
  returns m mid ->
  (forall a t1, mid a t1 -> returns (f a) (fun b t2 => post b (t1 ++ t2))) ->
  returns (bind m f) post.
Proof.
  intros Hm Hf r. unfold bind.
  destruct (Hm r) as (a & r1 & t1 & -> & Hmid).
  destruct (Hf a t1 Hmid r1) as (b & r2 & t2 & -> & Hpost).
  now exists b, r2, (t1 ++ t2).
Qed.

Lemma returns_Intn {E} n (post : Z -> list E -> Prop) :
  0 < n -> (forall k, 0 <= k < n -> post k []) -> returns (Intn n) post.
Proof.
  intros Hn H r. unfold Intn.
  destruct (Z.leb_spec n 0); [lia|].
  exists (raw r mod n), (advance r), []. split; [reflexivity|].
  apply H. now apply Z.mod_pos_bound.
Qed.

Lemma Float64_range z : (0 <= float64Of z < 1)%Q.
Proof.
  pose proof (Z.mod_pos_bound z (2 ^ 53) ltac:(lia)) as H.
  unfold float64Of, Qle, Qlt. simpl Qnum. simpl Qden.
  change (Z.pos (2 ^ 53)) with (2 ^ 53). lia.
Qed.

Lemma returns_Float64 {E} (post : Q -> list E -> Prop) :
  (forall x, (0 <= x < 1)%Q -> post x []) -> returns Float64 post.
Proof.
  intros H r. unfold Float64.
  eexists _, _, _. split; [reflexivity|].
  apply H, Float64_range.
Qed.

Lemma returns_weaken {E A} (m : M E A) (p q : A -> list E -> Prop) :
  returns m p -> (forall a t, p a t -> q a t) -> returns m q.
Proof.
  intros Hm Hpq r. destruct (Hm r) as (a & r' & t & Hr & Hp).
  exists a, r', t. auto.
Qed.

Lemma always_ret {E A} (a : A) (P : E -> Prop) : always (ret a) P.
Proof. intros r. constructor. Qed.

Lemma always_panic {E A} msg (P : E -> Prop) : always (@panic E A msg) P.
Proof. intros r. constructor. Qed.

Lemma always_emit {E} (e : E) (P : E -> Prop) : P e -> always (emit e) P.
Proof. intros H r. simpl. auto. Qed.

Lemma always_Intn {E} n (P : E -> Prop) : always (Intn n) P.
Proof. intros r. unfold Intn. destruct (n <=? 0); constructor. Qed.

Lemma always_Float64 {E} (P : E -> Prop) : always Float64 P.
Proof. intros r. constructor. Qed.

Lemma always_bind {E A B} (m : M E A) (f : A -> M E B) (P : E -> Prop) :
  always m P -> (forall a, always (f a) P) -> always (bind m f) P.
Proof.
  intros Hm Hf r. unfold bind.
  specialize (Hm r). destruct (m r) as [a r1 t1 | t1 msg]; simpl in *.
  - specialize (Hf a r1).
    destruct (f a r1); simpl in *; apply Forall_app; auto.
  - assumption.
Qed.

Lemma returns_bind_Intn {E B} n (f : Z -> M E B) post :
  0 < n -> (forall k, 0 <= k < n -> returns (f k) post) ->
  returns (bind (Intn n) f) post.
Proof.
  intros Hn Hf.
  apply returns_bind with (mid := fun k t => 0 <= k < n /\ t = []).
  - apply returns_Intn; auto.
  - intros k t1 [Hk ->]. simpl. auto.
Qed.

Lemma returns_bind_Float64 {E B} (f : Q -> M E B) post :
  (forall x, (0 <= x < 1)%Q -> returns (f x) post) ->
  returns (bind Float64 f) post.
Proof.
  intros Hf.
  apply returns_bind with (mid := fun x t => (0 <= x < 1)%Q /\ t = []).
  - apply returns_Float64; auto.
  - intros x t1 [Hx ->]. simpl. auto.
Qed.

Lemma returns_bind_emit {E B} (e : E) (f : unit -> M E B) post :
  returns (f tt) (fun b t => post b (e :: t)) ->
  returns (bind (emit e) f) post.
Proof.
  intros Hf.
  apply returns_bind with (mid := fun _ t => t = [e]).
  - now apply returns_emit.
  - intros [] t1 ->. exact Hf.
Qed.

(** A draw issues no call: the run continues with the value drawn. *)
Lemma bind_Intn {E B} n (f : Z -> M E B) r :
  0 < n -> bind (Intn n) f r = f (raw r mod n) (advance r).
Proof.
  intros Hn. unfold bind, Intn.
  destruct (Z.leb_spec n 0); [lia|].
  now destruct (f _ _).
Qed.

Lemma bind_Float64 {E B} (f : Q -> M E B) r :
  bind Float64 f r = f (float64Of (raw r)) (advance r).
Proof. unfold bind, Float64. now destruct (f _ _). Qed.

Lemma traceOf_bind {E A B} (m : M E A) (f : A -> M E B) r :
  traceOf (bind m f r)
  = match m r with
    | Ok a r1 t1 => t1 ++ traceOf (f a r1)
    | Panic t1 _ => t1
    end.
Proof. unfold bind. destruct (m r); [destruct (f _ _) |]; reflexivity. Qed.

(** The value [Intn] passes on lies in its range. *)
Lemma always_bind_Intn {E B} n (f : Z -> M E B) (P : E -> Prop) :
  (forall k, 0 <= k < n -> always (f k) P) -> always (bind (Intn n) f) P.
Proof.
  intros Hf r. unfold bind, Intn.
  destruct (Z.leb_spec n 0) as [Hn | Hn]; [constructor|].
  pose proof (Z.mod_pos_bound (raw r) n Hn) as Hk.
  specialize (Hf (raw r mod n) Hk (advance r)).
  destruct (f _ _); simpl in *; assumption.
Qed.

End EffectsFacts.

(** *** Properties of the scheduler *)

Module SchedFacts.
Import Sched.

Lemma Day_Date d h : 0 <= h < 24 -> Day (Date d h) = d.
Proof.
  intros Hh. unfold Day, Date, dayNs, hourNs.
  symmetry. apply Z.div_unique with (r := h * (3600 * 1000000000)); lia.
Qed.

Lemma Hour_Date d h : 0 <= h < 24 -> Hour (Date d h) = h.
Proof.
  intros Hh. unfold Hour, Date, hourNs.
  rewrite Z.div_mul by lia.
  symmetry. apply Z.mod_unique with (q := d); lia.
Qed.

Lemma Weekday_Date d h : 0 <= h < 24 -> Weekday (Date d h) = (d + 4) mod 7.
Proof. intros Hh. unfold Weekday. now rewrite Day_Date. Qed.

(** An instant lies in its own day, at its own hour. *)
Lemma Time_bounds now :
  Date (Day now) (Hour now) <= now < Date (Day now) (Hour now + 1)
  /\ 0 <= Hour now < 24.
Proof.
  unfold Date, Day, Hour, dayNs, hourNs.
  set (c := 3600 * 1000000000).
  assert (Hc : c = 3600000000000) by reflexivity.
  pose proof (Z.div_mod now c ltac:(lia)) as E1.
  pose proof (Z.mod_pos_bound now c ltac:(lia)) as B1.
  pose proof (Z.div_mod (now / c) 24 ltac:(lia)) as E2.
  pose proof (Z.mod_pos_bound (now / c) 24 ltac:(lia)) as B2.
  assert (E3 : now / (24 * c) = now / c / 24).
  { rewrite (Z.mul_comm 24 c). rewrite Z.div_div by lia. reflexivity. }
  rewrite E3. lia.
Qed.

(** Sleeping until a later instant that is less than [maxDuration] away ends
    exactly there. *)
Lemma Sleep_Until now t :
  now < t -> t - now <= maxDuration -> Sleep now (Until now t) = t.
Proof.
  intros Hlt Hmax. unfold Sleep, Until.
  assert (Hmin : minDuration < 0) by reflexivity.
  destruct (Z.ltb_spec (t - now) minDuration); [lia|].
  destruct (Z.ltb_spec maxDuration (t - now)); [lia|].
  destruct (Z.ltb_spec 0 (t - now)); lia.
Qed.

Lemma Sleep_Until_Date now k h :
  0 <= h < 24 -> 0 <= k <= 3 ->
  (k = 0 -> Hour now < h) ->
  Sleep now (Until now (Date (Day now + k) h)) = Date (Day now + k) h.
Proof.
  intros Hh Hk H0.
  pose proof (Time_bounds now) as [[Hlo Hhi] Hhr].
  assert (Hmax : maxDuration = 9223372036854775807) by reflexivity.
  apply Sleep_Until; unfold Date, hourNs in *; nia.
Qed.

Lemma Wait_exit fuel s now :
  IsBusinessHours s now = true -> WaitForBusinessHours fuel s now = Some now.
Proof. intros H. destruct fuel; simpl; now rewrite H. Qed.

Lemma Wait_step fuel s now :
  IsBusinessHours s now = false ->
  WaitForBusinessHours (S fuel) s now
  = WaitForBusinessHours fuel s
      (Sleep now (Until now (nextBusinessTime s now))).
Proof. intros H. simpl. now rewrite H. Qed.

Ltac split_tests :=
  repeat match goal with
    | |- context [?a =? ?b] => destruct (Z.eqb_spec a b)
    | |- context [?a <? ?b] => destruct (Z.ltb_spec a b)
    | |- context [?a <=? ?b] => destruct (Z.leb_spec a b)
    end.

Section Window.

Variable s : Scheduler.
Hypothesis start_range : 0 <= businessHoursStart s < 24.
Hypothesis start_before_end : businessHoursStart s < businessHoursEnd s.

(** The loop body always picks an instant after [now], and the sleep ends
    exactly there. *)
Lemma Sleep_nextBusinessTime now :
  Sleep now (Until now (nextBusinessTime s now)) = nextBusinessTime s now.
Proof.
  unfold nextBusinessTime.
  split_tests; try (apply Sleep_Until_Date; lia).
  pose proof (Sleep_Until_Date now 0 (businessHoursStart s)) as H0.
  rewrite Z.add_0_r in H0. apply H0; lia.
Qed.

(** At the start hour of a day the window is open exactly on permitted
    days. *)
Lemma IsBusinessHours_at_start d :
  IsBusinessHours s (Date d (businessHoursStart s)) = permittedDay s d.
Proof.
  unfold IsBusinessHours, permittedDay.
  rewrite Weekday_Date, Hour_Date by lia.
  destruct (weekendActivity s); simpl;
    split_tests; simpl; try reflexivity; lia.
Qed.

Lemma nextBusinessTime_at_start d :
  nextBusinessTime s (Date d (businessHoursStart s))
  = if (d + 4) mod 7 =? Saturday then Date (d + 2) (businessHoursStart s)
    else Date (d + 1) (businessHoursStart s).
Proof.
  unfold nextBusinessTime.
  rewrite Weekday_Date, Hour_Date, Day_Date by lia.
  split_tests; try reflexivity; lia.
Qed.

Ltac weekday_arith :=
  unfold Saturday, Sunday in *; Z.to_euclidean_division_equations; lia.

(** Without weekend activity the wait ends at the instant the specified
    policy names, after at most two sleeps (two on a Friday evening: the
    first sleep ends on the Saturday, the second on the Monday). *)
Lemma Wait_without_weekend_activity now :
  weekendActivity s = false ->
  IsBusinessHours s now = false ->
  WaitForBusinessHours 2 s now = Some (NextWindowStart_spec s now).
Proof.
  intros Hw Hout.
  rewrite Wait_step, Sleep_nextBusinessTime by assumption.
  pose proof (Time_bounds now) as [_ Hh].
  set (d := if Weekday now =? Saturday then Day now + 2
            else if Weekday now =? Sunday then Day now + 1
            else if Hour now <? businessHoursStart s then Day now
            else Day now + 1).
  assert (Hd : nextBusinessTime s now = Date d (businessHoursStart s)).
  { unfold nextBusinessTime, d. split_tests; reflexivity. }
  assert (Hspec : NextWindowStart_spec s now
                  = if permittedDay s d then Date d (businessHoursStart s)
                    else Date (d + 2) (businessHoursStart s)).
  { revert Hout. subst d.
    unfold NextWindowStart_spec, followingPermittedDay, IsBusinessHours,
      permittedDay, Weekday.
    rewrite Hw. simpl.
    split_tests; simpl; intros; try reflexivity; try discriminate;
      try (exfalso; weekday_arith); f_equal; lia. }
  rewrite Hd, Hspec.
  destruct (permittedDay s d) eqn:Hperm.
  - apply Wait_exit. now rewrite IsBusinessHours_at_start.
  - rewrite Wait_step by (now rewrite IsBusinessHours_at_start).
    rewrite Sleep_nextBusinessTime, nextBusinessTime_at_start.
    assert (Hsat : (d + 4) mod 7 = Saturday).
    { revert Hperm. subst d. unfold permittedDay, Weekday.
      rewrite Hw. simpl.
      split_tests; simpl; intros; try discriminate; try assumption;
        exfalso; weekday_arith. }
    rewrite Hsat, Z.eqb_refl.
    apply Wait_exit. rewrite IsBusinessHours_at_start.
    unfold permittedDay. rewrite Hw. simpl.
    split_tests; simpl; try reflexivity; exfalso; weekday_arith.
Qed.

(** With weekend activity the same holds for a wait started on a weekday:
    one sleep, to the same day's start or the next day's, Saturday
    included. *)
Lemma Wait_from_weekday now :
  Weekday now <> Saturday -> Weekday now <> Sunday ->
  weekendActivity s = true ->
  IsBusinessHours s now = false ->
  WaitForBusinessHours 1 s now = Some (NextWindowStart_spec s now).
Proof.
  intros Hsat Hsun Hw Hout.
  rewrite Wait_step, Sleep_nextBusinessTime by assumption.
  unfold NextWindowStart_spec, followingPermittedDay, nextBusinessTime,
    permittedDay.
  rewrite Hw. cbn [orb andb].
  split_tests; try contradiction;
    (rewrite Wait_exit;
     [ reflexivity
     | rewrite IsBusinessHours_at_start; unfold permittedDay;
       now rewrite Hw ]).
Qed.

(** On a Saturday or a Sunday the loop body targets the Monday whatever
    [weekendActivity] says. *)
Lemma Wait_from_weekend now :
  Weekday now = Saturday \/ Weekday now = Sunday ->
  IsBusinessHours s now = false ->
  exists monday,
    WaitForBusinessHours 1 s now = Some monday
    /\ Weekday monday = Monday /\ Hour monday = businessHoursStart s
    /\ Day now < Day monday <= Day now + 2.
Proof.
  intros Hwe Hout.
  rewrite Wait_step, Sleep_nextBusinessTime by assumption.
  assert (Hnext : exists d, nextBusinessTime s now
                            = Date d (businessHoursStart s)
                            /\ (d + 4) mod 7 = Monday
                            /\ Day now < d <= Day now + 2).
  { unfold nextBusinessTime, Weekday in *.
    split_tests; eexists; (split; [reflexivity|]);
      unfold Monday; destruct Hwe; weekday_arith. }
  destruct Hnext as [d [Hd [Hmon Hrange]]].
  exists (Date d (businessHoursStart s)).
  rewrite Hd, Weekday_Date, Hour_Date, Day_Date by lia.
  repeat split; try assumption; try lia.
  apply Wait_exit. rewrite IsBusinessHours_at_start.
  unfold permittedDay. rewrite Hmon.
  now destruct (weekendActivity s).
Qed.

End Window.

Example saturday_is_day_2 : Weekday (Date 2 7) = Saturday.
Proof. reflexivity. Qed.

Example wait_saturday_10_no_weekend :
  WaitForBusinessHours 2 (mkScheduler 9 17 UTC false 5 15 (1 # 10))
                       (Date 2 10)
  = Some (Date 4 9).
Proof. vm_compute. reflexivity. Qed.

(** C1.  With weekend activity on and business hours 9 to 17, a wait started
    on a Saturday at 07:00 ends on the Monday at 09:00: the loop only leaves
    at that instant, although the Saturday is a permitted day and the
    specified policy gives that same Saturday at 09:00. *)
Theorem C1_wait_saturday_morning_weekend_activity :
  let s := mkScheduler 9 17 UTC true 5 15 (1 # 10) in
  let now := Date 2 7 in
  Weekday now = Saturday /\
  IsBusinessHours s now = false /\
  nextBusinessTime s now = Date 4 9 /\
  WaitForBusinessHours 1 s now = Some (Date 4 9) /\
  Weekday (Date 4 9) = Monday /\
  NextWindowStart_spec s now = Date 2 9 /\
  IsBusinessHours s (Date 2 9) = true /\
  Date 4 9 <> Date 2 9.
Proof.
  vm_compute. repeat split; try reflexivity; discriminate.
Qed.

End SchedFacts.

(** *** Further properties of the scheduler *)

Module SchedMore.
Import Sched SchedFacts.

(** An instant of a given hour of a given day. *)
Lemma in_hour d h x :
  0 <= h < 24 -> Date d h <= x < Date d (h + 1) -> Day x = d /\ Hour x = h.
Proof.
  intros Hh [Hlo Hhi].
  pose proof (Time_bounds x) as [[Hlo' Hhi'] Hhx].
  unfold Date, hourNs in *. nia.
Qed.

Section Window.

Variable s : Scheduler.
Hypothesis start_range : 0 <= businessHoursStart s < 24.
Hypothesis start_before_end : businessHoursStart s < businessHoursEnd s.

(** During the start hour of a day the window is open exactly on permitted
    days. *)
Lemma IsBusinessHours_in_start_hour d x :
  Date d (businessHoursStart s) <= x < Date d (businessHoursStart s + 1) ->
  IsBusinessHours s x = permittedDay s d.
Proof.
  intros Hx. destruct (in_hour _ _ _ start_range Hx) as [Hd Hh].
  unfold IsBusinessHours, permittedDay, Weekday. rewrite Hd, Hh.
  destruct (weekendActivity s); simpl;
    split_tests; simpl; try reflexivity; lia.
Qed.

(** The instant the body picks: the start hour of a day that is permitted
    or a Saturday, after [now] and less than three days away. *)
Lemma nextBusinessTime_target now :
  exists d,
    nextBusinessTime s now = Date d (businessHoursStart s)
    /\ now < Date d (businessHoursStart s) <= now + 3 * dayNs
    /\ (permittedDay s d = true
        \/ ((d + 4) mod 7 = Saturday
            /\ Date d (businessHoursStart s) <= now + dayNs))
    /\ (Weekday now = Saturday -> d = Day now + 2)
    /\ (Weekday now = Sunday -> d = Day now + 1).
Proof.
  pose proof (Time_bounds now) as [[Hlo Hhi] Hh].
  unfold nextBusinessTime, permittedDay, Weekday.
  destruct (Z.eqb_spec ((Day now + 4) mod 7) Saturday) as [Hsat | Hsat];
    [| destruct (Z.eqb_spec ((Day now + 4) mod 7) Sunday) as [Hsun | Hsun];
       [| destruct (Z.ltb_spec (Hour now) (businessHoursStart s))]];
    eexists; (split; [reflexivity |]);
    (split; [unfold Date, dayNs, hourNs in *; nia |]);
    (split; [| unfold Weekday; split; intros; try reflexivity;
               try contradiction;
               exfalso; unfold Saturday, Sunday in *; lia ]).
  - left. replace ((Day now + 2 + 4) mod 7) with Monday
      by (unfold Monday, Saturday in *; Z.to_euclidean_division_equations; lia).
    now destruct (weekendActivity s).
  - left. replace ((Day now + 1 + 4) mod 7) with Monday
      by (unfold Monday, Sunday in *; Z.to_euclidean_division_equations; lia).
    now destruct (weekendActivity s).
  - left. destruct (weekendActivity s); [reflexivity |]. simpl.
    split_tests; try reflexivity; contradiction.
  - destruct (Z.eq_dec ((Day now + 1 + 4) mod 7) Saturday) as [E | N].
    + right. split; [exact E |]. unfold Date, dayNs, hourNs in *. nia.
    + left. destruct (weekendActivity s); [reflexivity |]. simpl.
      split_tests; try reflexivity; try contradiction.
      exfalso. unfold Saturday, Sunday in *.
      Z.to_euclidean_division_equations; lia.
Qed.

(** A sleep asked for less than half an hour after the body read the
    clock ends in the first half hour from its target. *)
Lemma Sleep_reaches now next asked :
  now < next <= now + 3 * dayNs ->
  now <= asked -> 2 * (asked - now) < hourNs ->
  let woke := Sleep asked (Until asked next) in
  next <= woke /\ asked <= woke /\ 2 * (woke - next) < hourNs.
Proof.
  intros Hnext Hlo Hhi. unfold Sleep, Until, minDuration, maxDuration.
  unfold dayNs, hourNs in *.
  destruct (Z.ltb_spec (next - asked) (- 2 ^ 63)); [lia|].
  destruct (Z.ltb_spec (2 ^ 63 - 1) (next - asked)); [lia|].
  destruct (Z.ltb_spec 0 (next - asked)); lia.
Qed.

Variable lag : nat -> Z.
Hypothesis lag_range : forall k, 0 <= 2 * lag k < hourNs.

Lemma Reads_exit fuel k t :
  IsBusinessHours s (t + lag k) = true ->
  WaitForBusinessHoursReads lag fuel s k t = Some (t + lag k, O).
Proof. intros H. destruct fuel; simpl; now rewrite H. Qed.

(** One iteration of the loop: the next test of [IsBusinessHours] reads
    the clock in the start hour of the day the body picked. *)
Lemma Reads_step fuel k t :
  IsBusinessHours s (t + lag k) = false ->
  let now := t + lag k + lag (S k) in
  exists d woke,
    WaitForBusinessHoursReads lag (S fuel) s k t
    = match WaitForBusinessHoursReads lag fuel s (S (S (S k))) woke with
      | Some (t', sleeps) => Some (t', S sleeps)
      | None => None
      end
    /\ nextBusinessTime s now = Date d (businessHoursStart s)
    /\ now < Date d (businessHoursStart s) <= now + 3 * dayNs
    /\ (permittedDay s d = true
        \/ ((d + 4) mod 7 = Saturday
            /\ Date d (businessHoursStart s) <= now + dayNs))
    /\ (Weekday now = Saturday -> d = Day now + 2)
    /\ (Weekday now = Sunday -> d = Day now + 1)
    /\ Date d (businessHoursStart s) <= woke + lag (S (S (S k)))
       < Date d (businessHoursStart s + 1).
Proof.
  intros Hout now.
  destruct (nextBusinessTime_target now) as (d & Hd & Hr & Hp & Hsat & Hsun).
  exists d, (Sleep (now + lag (S (S k)))
                   (Until (now + lag (S (S k))) (nextBusinessTime s now))).
  split; [simpl; now rewrite Hout |].
  repeat (split; [assumption |]).
  pose proof (lag_range (S (S k))) as L2.
  pose proof (lag_range (S (S (S k)))) as L3.
  rewrite Hd.
  destruct (Sleep_reaches now (Date d (businessHoursStart s))
              (now + lag (S (S k))) Hr ltac:(lia) ltac:(lia))
    as (H1 & H2 & H3).
  assert (Hdate : Date d (businessHoursStart s + 1)
                  = Date d (businessHoursStart s) + hourNs)
    by (unfold Date; lia).
  rewrite Hdate. lia.
Qed.

End Window.

(** X1.  [WaitForBusinessHours] in the zone UTC, its clock reads kept
    apart, each of them less than half an hour after the event before it:
    for business hours with 0 <= start < 24 and start < end, whatever
    [weekendActivity] says, the loop exits after at most two sleeps, at a
    read of the clock that is inside business hours, not before the call
    and less than three days and two hours after it; when the loop slept
    at all, it exits in the start hour. *)
Theorem X1_wait_terminates s lag t0 :
  timezone s = UTC ->
  0 <= businessHoursStart s < 24 ->
  businessHoursStart s < businessHoursEnd s ->
  (forall k, 0 <= 2 * lag k < hourNs) ->
  exists t sleeps,
    WaitForBusinessHoursReads lag 2 s 0 t0 = Some (t, sleeps)
    /\ (sleeps <= 2)%nat
    /\ IsBusinessHours s t = true
    /\ t0 <= t < t0 + 3 * dayNs + 2 * hourNs
    /\ (sleeps <> 0%nat -> Hour t = businessHoursStart s).
Proof.
  intros _ Hstart Hend Hlag.
  pose proof (Hlag 0%nat) as L0. pose proof (Hlag 1%nat) as L1.
  pose proof (Hlag 3%nat) as L3. pose proof (Hlag 4%nat) as L4.
  assert (Hh : 0 < hourNs) by reflexivity.
  assert (Hdn : dayNs = 24 * hourNs) by reflexivity.
  destruct (IsBusinessHours s (t0 + lag 0%nat)) eqn:Hin0.
  { exists (t0 + lag 0%nat), 0%nat.
    rewrite (Reads_exit s lag) by assumption.
    split; [reflexivity |]. split; [lia |]. split; [assumption |].
    split; [lia |]. intros H. now contradiction H. }
  destruct (Reads_step s Hstart lag Hlag 1 0 t0 Hin0)
    as (d0 & woke0 & Hrun0 & _ & Hr0 & Hp0 & _ & _ & Ha1).
  cbv zeta in Hr0, Hp0.
  set (a1 := woke0 + lag 3%nat) in *.
  pose proof (IsBusinessHours_in_start_hour s Hstart Hend d0 a1 Ha1) as Hopen1.
  destruct (in_hour _ _ _ Hstart Ha1) as [Hd1 Hh1].
  destruct (permittedDay s d0) eqn:Hperm0.
  { exists a1, 1%nat. rewrite Hrun0.
    unfold a1. rewrite (Reads_exit s lag) by assumption. fold a1.
    assert (Date d0 (businessHoursStart s + 1)
            = Date d0 (businessHoursStart s) + hourNs)
      by (unfold Date; lia).
    split; [reflexivity |]. split; [lia |]. split; [assumption |].
    split; [lia | intros _; exact Hh1]. }
  destruct Hp0 as [Hp0 | [Hsat0 Hnear0]]; [discriminate |].
  destruct (Reads_step s Hstart lag Hlag 0 3 woke0 Hopen1)
    as (d1 & woke1 & Hrun1 & _ & Hr1 & _ & Hsat1 & Hsun1 & Ha2).
  cbv zeta in Hr1, Hsat1, Hsun1. fold a1 in Hr1, Hsat1, Hsun1.
  set (a2 := woke1 + lag 6%nat) in *.
  assert (Hd : d1 = d0 + 2).
  { assert (Hb1 : Date d0 (businessHoursStart s) <= a1 + lag 4%nat
                  < Date d0 (businessHoursStart s + 2)).
    { assert (Date d0 (businessHoursStart s + 1)
              = Date d0 (businessHoursStart s) + hourNs)
        by (unfold Date; lia).
      assert (Date d0 (businessHoursStart s + 2)
              = Date d0 (businessHoursStart s) + 2 * hourNs)
        by (unfold Date; lia). lia. }
    pose proof (Time_bounds (a1 + lag 4%nat)) as [[Hlo Hhi] Hhb].
    assert (Hday : Day (a1 + lag 4%nat) = d0
                   \/ Day (a1 + lag 4%nat) = d0 + 1).
    { unfold Date, hourNs in *. nia. }
    unfold Weekday in Hsat1, Hsun1.
    destruct Hday as [E | E]; rewrite E in *.
    - apply Hsat1. exact Hsat0.
    - rewrite Hsun1; [lia |]. unfold Saturday, Sunday in *.
      Z.to_euclidean_division_equations; lia. }
  subst d1.
  assert (Hperm2 : permittedDay s (d0 + 2) = true).
  { unfold permittedDay.
    replace ((d0 + 2 + 4) mod 7) with Monday
      by (unfold Monday, Saturday in *;
          Z.to_euclidean_division_equations; lia).
    now destruct (weekendActivity s). }
  pose proof (IsBusinessHours_in_start_hour s Hstart Hend _ a2 Ha2) as Hopen2.
  rewrite Hperm2 in Hopen2.
  destruct (in_hour _ _ _ Hstart Ha2) as [Hd2 Hh2].
  exists a2, 2%nat. rewrite Hrun0, Hrun1.
  unfold a2. rewrite (Reads_exit s lag) by assumption. fold a2.
  assert (Date (d0 + 2) (businessHoursStart s + 1)
          = Date d0 (businessHoursStart s) + 2 * dayNs + hourNs)
    by (unfold Date, dayNs; lia).
  assert (Date (d0 + 2) (businessHoursStart s)
          = Date d0 (businessHoursStart s) + 2 * dayNs)
    by (unfold Date, dayNs; lia).
  split; [reflexivity |]. split; [lia |]. split; [assumption |].
  split; [lia | intros _; exact Hh2].
Qed.

(** The theorem for business hours 9 to 17 without weekend activity, a
    call at 10:00 on a Saturday and reads one millisecond apart. *)
Lemma X1_wait_terminates_witness :
  exists t sleeps,
    WaitForBusinessHoursReads (fun _ => 1000000) 2
      (mkScheduler 9 17 UTC false 5 15 (1 # 10)) 0 (Date 2 10)
    = Some (t, sleeps)
    /\ (sleeps <= 2)%nat
    /\ IsBusinessHours (mkScheduler 9 17 UTC false 5 15 (1 # 10)) t = true
    /\ Date 2 10 <= t < Date 2 10 + 3 * dayNs + 2 * hourNs
    /\ (sleeps <> 0%nat -> Hour t = 9).
Proof.
  apply (X1_wait_terminates (mkScheduler 9 17 UTC false 5 15 (1 # 10))
           (fun _ => 1000000) (Date 2 10)).
  - reflexivity.
  - simpl. lia.
  - simpl. lia.
  - intros k. unfold hourNs. lia.
Defined.

Import Effects EffectsFacts.

Ltac small64 :=
  rewrite ?GoIntFacts.wrap64_small by (unfold GoInt.inRange; lia).

(** X3.  For break durations between 0 and 10^8 minutes: when the minimum
    is at most the maximum, [TakeBreak] sleeps once, for a duration between
    the two; when the pair is inverted, which no check prevents,
    [TakeBreak] panics in [rand.Intn] without sleeping. *)
Theorem X3_TakeBreak s rng :
  0 <= breakDurationMin s <= 100000000 ->
  0 <= breakDurationMax s <= 100000000 ->
  if breakDurationMin s <=? breakDurationMax s then
    exists d,
      TakeBreak s rng = Ok tt (advance rng) [BreakSleep d]
      /\ breakDurationMin s * minuteNs <= d <= breakDurationMax s * minuteNs
  else TakeBreak s rng = Panic [] "invalid argument to Intn".
Proof.
  intros Hmin Hmax. unfold TakeBreak.
  assert (Hn : GoInt.add (GoInt.sub (breakDurationMax s)
                                    (breakDurationMin s)) 1
               = breakDurationMax s - breakDurationMin s + 1).
  { unfold GoInt.add, GoInt.sub.
    rewrite (GoIntFacts.wrap64_small (_ - _))
      by (unfold GoInt.inRange; lia).
    apply GoIntFacts.wrap64_small. unfold GoInt.inRange. lia. }
  rewrite Hn.
  destruct (Z.leb_spec (breakDurationMin s) (breakDurationMax s)) as [Hle | Hgt].
  - rewrite bind_Intn by lia.
    pose proof (Z.mod_pos_bound (raw rng)
                  (breakDurationMax s - breakDurationMin s + 1)
                  ltac:(lia)) as Hk.
    eexists. split; [reflexivity |].
    unfold GoInt.add, GoInt.mul, minuteNs.
    rewrite (GoIntFacts.wrap64_small (breakDurationMin s + _))
      by (unfold GoInt.inRange; lia).
    rewrite GoIntFacts.wrap64_small by (unfold GoInt.inRange; nia).
    nia.
  - unfold bind, Intn.
    destruct (Z.leb_spec (breakDurationMax s - breakDurationMin s + 1) 0);
      [reflexivity | lia].
Qed.

(** The theorem for breaks of 5 to 15 minutes. *)
Lemma X3_TakeBreak_witness :
  (0 <= 5 <= 100000000 /\ 0 <= 15 <= 100000000)
  /\ exists d,
       TakeBreak (mkScheduler 9 17 UTC false 5 15 (1 # 10)) (fromList [7])
       = Ok tt (advance (fromList [7])) [BreakSleep d]
       /\ 5 * minuteNs <= d <= 15 * minuteNs.
Proof.
  assert (H1 : 0 <= 5 <= 100000000) by lia.
  assert (H2 : 0 <= 15 <= 100000000) by lia.
  split; [now split |].
  exact (X3_TakeBreak (mkScheduler 9 17 UTC false 5 15 (1 # 10))
           (fromList [7]) H1 H2).
Defined.

Lemma Qltb_zero x p : (0 <= x)%Q -> (p <= 0)%Q -> Qltb x p = false.
Proof.
  intros Hx Hp. unfold Qltb.
  assert (H : Qle_bool p x = true).
  { apply Qle_bool_iff. now apply Qle_trans with 0%Q. }
  now rewrite H.
Qed.

Lemma Qltb_one x p : (x < 1)%Q -> (1 <= p)%Q -> Qltb x p = true.
Proof.
  intros Hx Hp. unfold Qltb.
  destruct (Qle_bool p x) eqn:H; [| reflexivity].
  apply Qle_bool_iff in H. exfalso.
  apply (Qlt_irrefl x). apply Qlt_le_trans with 1%Q; [assumption |].
  now apply Qle_trans with p.
Qed.

(** X4.  The break step of the main loop at the ends of the probability
    range: with a break probability of 0 or less it never sleeps and never
    panics, whatever the durations; with a break probability of 1 or more
    it takes a break every time. *)
Theorem X4_breakStep_extremes s rng :
  ((breakProbability s <= 0)%Q -> breakStep s rng = Ok tt (advance rng) [])
  /\ ((1 <= breakProbability s)%Q ->
      breakStep s rng = TakeBreak s (advance rng)).
Proof.
  unfold breakStep, ShouldTakeBreak.
  pose proof (Float64_range (raw rng)) as [H0 H1].
  split; intros Hp; unfold bind at 1; unfold bind at 1;
    unfold Float64, ret; cbn [app].
  - rewrite (Qltb_zero _ _ H0 Hp). reflexivity.
  - rewrite (Qltb_one _ _ H1 Hp).
    destruct (TakeBreak s (advance rng)); reflexivity.
Qed.

(** The theorem at the break probabilities 0 and 1, with the inverted
    durations 15 and 5. *)
Lemma X4_breakStep_extremes_witness :
  breakStep (mkScheduler 9 17 UTC false 15 5 0) (fromList [3])
  = Ok tt (advance (fromList [3])) []
  /\ breakStep (mkScheduler 9 17 UTC false 15 5 1) (fromList [3])
     = TakeBreak (mkScheduler 9 17 UTC false 15 5 1)
                 (advance (fromList [3])).
Proof.
  split.
  - apply (proj1 (X4_breakStep_extremes
                    (mkScheduler 9 17 UTC false 15 5 0) (fromList [3]))).
    discriminate.
  - apply (proj2 (X4_breakStep_extremes
                    (mkScheduler 9 17 UTC false 15 5 1) (fromList [3]))).
    discriminate.
Defined.

Lemma Hour_DateAt d h m :
  0 <= h < 24 -> 0 <= m < 60 -> Hour (DateAt d h m) = h /\ Day (DateAt d h m) = d.
Proof.
  intros Hh Hm. unfold Hour, Day, DateAt, dayNs, hourNs, minuteNs.
  assert (E1 : ((d * 24 + h) * 60 + m) * (60 * 1000000000)
               / (3600 * 1000000000) = d * 24 + h).
  { symmetry. apply Z.div_unique with (r := m * (60 * 1000000000)); lia. }
  assert (E2 : ((d * 24 + h) * 60 + m) * (60 * 1000000000)
               / (24 * (3600 * 1000000000)) = d).
  { symmetry.
    apply Z.div_unique
      with (r := (h * 60 + m) * (60 * 1000000000)); lia. }
  rewrite E1, E2. split; [| reflexivity].
  symmetry. apply Z.mod_unique with (q := d); lia.
Qed.

Lemma next_day t :
  Hour (t + 24 * hourNs) = Hour t /\ Day (t + 24 * hourNs) = Day t + 1.
Proof.
  unfold Hour, Day, dayNs. split.
  - rewrite Z.div_add by (unfold hourNs; lia).
    rewrite Z.add_mod, Z.mod_same, Z.add_0_r, Z.mod_mod by lia.
    reflexivity.
  - replace (t + 24 * hourNs) with (t + 1 * (24 * hourNs)) by lia.
    apply Z.div_add. unfold hourNs. lia.
Qed.

(** X5.  In the zone UTC, where a day has 24 hours, and for business hours
    with 0 <= start < end <= 24, [GetRandomStartTime] issues no call and
    returns an instant that is not before [now], lies on the day of [now]
    or on the next one, and whose hour is inside business hours. *)
Theorem X5_GetRandomStartTime s now (rng : Rand) :
  timezone s = UTC ->
  0 <= businessHoursStart s ->
  businessHoursStart s < businessHoursEnd s ->
  businessHoursEnd s <= 24 ->
  exists t,
    @GetRandomStartTime BreakEvent s now rng = Ok t (advanceBy 2 rng) []
    /\ now <= t
    /\ businessHoursStart s <= Hour t < businessHoursEnd s
    /\ (Day t = Day now \/ Day t = Day now + 1).
Proof.
  intros _ H0 Hlt H24. unfold GetRandomStartTime.
  assert (Hn : GoInt.sub (businessHoursEnd s) (businessHoursStart s)
               = businessHoursEnd s - businessHoursStart s).
  { apply GoIntFacts.wrap64_small. unfold GoInt.inRange. lia. }
  rewrite Hn, bind_Intn by lia. rewrite bind_Intn by lia.
  pose proof (Z.mod_pos_bound (raw rng)
                (businessHoursEnd s - businessHoursStart s) ltac:(lia)) as Hk.
  pose proof (Z.mod_pos_bound (raw (advance rng)) 60 ltac:(lia)) as Hm.
  set (k := raw rng mod (businessHoursEnd s - businessHoursStart s)) in *.
  set (m := raw (advance rng) mod 60) in *.
  assert (Hh : GoInt.add (businessHoursStart s) k = businessHoursStart s + k).
  { apply GoIntFacts.wrap64_small. unfold GoInt.inRange. lia. }
  rewrite Hh.
  destruct (Hour_DateAt (Day now) (businessHoursStart s + k) m
              ltac:(lia) Hm) as [HH HD].
  destruct (Z.ltb_spec (DateAt (Day now) (businessHoursStart s + k) m) now)
    as [Hbefore | Hafter].
  - eexists. split; [reflexivity |].
    destruct (next_day (DateAt (Day now) (businessHoursStart s + k) m))
      as [HH' HD'].
    rewrite HH', HD', HH, HD.
    split; [| split; [lia | now right]].
    pose proof (Time_bounds now) as [[_ Hhi] Hr].
    unfold DateAt, Date, hourNs, minuteNs in *. nia.
  - eexists. split; [reflexivity |].
    rewrite HH, HD. split; [lia | split; [lia | now left]].
Qed.

(** The theorem for business hours 9 to 17, at 18:00 on day 5. *)
Lemma X5_GetRandomStartTime_witness :
  (0 <= 9 /\ 9 < 17 /\ 17 <= 24)
  /\ exists t,
       @GetRandomStartTime BreakEvent
         (mkScheduler 9 17 UTC false 5 15 (1 # 10)) (Date 5 18)
         (fromList [3; 20])
       = Ok t (advanceBy 2 (fromList [3; 20])) []
       /\ Date 5 18 <= t
       /\ 9 <= Hour t < 17
       /\ (Day t = Day (Date 5 18) \/ Day t = Day (Date 5 18) + 1).
Proof.
  split; [lia |].
  apply (X5_GetRandomStartTime (mkScheduler 9 17 UTC false 5 15 (1 # 10))
           (Date 5 18) (fromList [3; 20]));
    [reflexivity | simpl; lia | simpl; lia | simpl; lia].
Defined.

End SchedMore.

(** *** Properties of the typer *)

Module TypingFacts.
Import Effects EffectsFacts Typing.
Local Open Scope go_scope.

Ltac always_step :=
  repeat first
    [ apply always_bind; [| intros ?]
    | apply always_ret | apply always_panic
    | apply always_Intn | apply always_Float64
    | match goal with |- always (if ?b then _ else _) _ => destruct b end ].

Lemma ms_small n : 0 <= n <= 1000000 -> ms n = n * Millisecond.
Proof.
  intros H. unfold ms, GoInt.mul. apply GoIntFacts.wrap64_small.
  unfold GoInt.inRange, Millisecond. lia.
Qed.

Lemma prePause_within t : always (prePause t) (prePauseWithin 200 699).
Proof.
  unfold prePause.
  apply always_bind; [apply always_Float64 | intros p].
  destruct (Qltb _ _); [| apply always_ret].
  apply always_bind_Intn. intros k Hk. apply always_emit.
  unfold prePauseWithin, GoInt.add.
  rewrite GoIntFacts.wrap64_small by (unfold GoInt.inRange; lia).
  rewrite ms_small by lia. unfold Millisecond. lia.
Qed.

Lemma typo_within t msPerChar i lo hi :
  always (typo t msPerChar i) (prePauseWithin lo hi).
Proof. unfold typo, getRandomChar. always_step; now apply always_emit. Qed.

Lemma correctChar_within msPerChar c lo hi :
  always (correctChar msPerChar c) (prePauseWithin lo hi).
Proof. unfold correctChar. always_step; now apply always_emit. Qed.

Lemma typeRunes_within t msPerChar text :
  forall i, always (typeRunes t msPerChar i text) (prePauseWithin 200 699).
Proof.
  induction text as [| [c w] rest IH]; intros i; simpl.
  - apply always_ret.
  - apply always_bind; [| intros _; apply IH].
    unfold typeChar.
    apply always_bind; [apply prePause_within | intros _].
    apply always_bind; [apply typo_within | intros _].
    apply correctChar_within.
Qed.

(** C5 (as amended).  Whatever the typer, the text and the draws, every
    pause [TypeText] takes before a character lasts between 200 and 699
    milliseconds: it is 200 + Intn(500) ms, which does not depend on the
    typing speed. *)
Theorem C5_pre_pause_range t text rng :
  prePausesWithin 200 699 (traceOf (TypeText t text rng)).
Proof.
  revert rng. change (always (TypeText t text) (prePauseWithin 200 699)).
  unfold TypeText.
  apply always_bind; [now apply always_emit | intros _].
  apply always_bind; [apply always_Intn | intros n].
  destruct (_ =? 0); [apply always_panic |].
  apply always_bind; [apply typeRunes_within | intros _; apply always_ret].
Qed.

(** C5, the claim as stated fails: with pauseProbability 1/2, the text "a"
    and the draws 0, 0, 499, the pause before the character lasts 699 ms,
    which is more than 500 ms. *)
Lemma C5_pre_pause_exceeds_500ms :
  let tr := traceOf (TypeText (NewTyper 60 60 0 (1 # 2)) (ascii_text "a")
                              (fromList [0; 0; 499])) in
  nth 1 tr Focus = Sleep BeforeChar (699 * Millisecond)
  /\ ~ prePausesWithin 200 500 tr.
Proof.
  split; [reflexivity|].
  intros H.
  apply Forall_forall with (x := Sleep BeforeChar (699 * Millisecond)) in H.
  - destruct H as [_ H]. apply H. reflexivity.
  - right. left. reflexivity.
Qed.











Lemma ascii_text_length s : List.length (ascii_text s) = String.length s.
Proof.
  unfold ascii_text. rewrite length_map.
  induction s as [| a s IH]; simpl; [reflexivity | now rewrite IH].
Qed.



(** Above 6000 words per minute the delay per character is 1 ms or less
    and the draw of its jitter panics: at 12000 words per minute, after the
    first character has been typed. *)
Example TypeText_at_12000_wpm_panics :
  TypeText (NewTyper 12000 12000 0 0) (ascii_text "ab.") (fromList [])
  = Panic [Focus; TypeChar 97] "invalid argument to Intn".
Proof. reflexivity. Qed.

End TypingFacts.

(** *** Properties of the scroller *)

Module ScrollingFacts.
Import Effects EffectsFacts Scrolling.
Local Open Scope go_scope.

Ltac small := rewrite ?GoIntFacts.wrap64_small by (unfold GoInt.inRange; lia).

(** A chunk size below 2 stops the first chunk: [Intn(chunkSize/2)] is
    [Intn(0)] or has a negative argument. *)
Lemma scrollAmount_panics chunkSize r :
  GoInt.quo chunkSize 2 <= 0 -> scrollAmount chunkSize r = Panic [] IntnPanic.
Proof.
  intros H. unfold scrollAmount, bind, Intn.
  destruct (Z.leb_spec (GoInt.quo chunkSize 2) 0); [reflexivity | lia].
Qed.

Lemma times_panics {E} (body : M E unit) n r msg :
  body r = Panic [] msg -> times (S n) body r = Panic [] msg.
Proof. intros H. simpl. unfold bind. now rewrite H. Qed.

Lemma chunks_range k :
  0 <= k < 10 ->
  GoInt.add 5 k = 5 + k /\ exists n, Z.to_nat (5 + k) = S n.
Proof.
  intros Hk. unfold GoInt.add. small. split; [reflexivity|].
  exists (Z.to_nat (4 + k)). lia.
Qed.

Lemma quo_small_chunk distance chunks :
  0 <= distance < 10 -> 5 <= chunks ->
  GoInt.quo (GoInt.quo distance chunks) 2 <= 0.
Proof.
  intros Hd Hc. unfold GoInt.quo.
  assert (H : 0 <= distance ÷ chunks < 2).
  { rewrite Z.quot_div_nonneg by lia. split.
    - apply Z.div_pos; lia.
    - apply Z.div_lt_upper_bound; lia. }
  rewrite (GoIntFacts.wrap64_small (distance ÷ chunks))
    by (unfold GoInt.inRange; lia).
  assert (H2 : distance ÷ chunks ÷ 2 = 0).
  { apply Z.quot_small. lia. }
  rewrite H2. discriminate.
Qed.

(** A distance of 0 to 9 makes [ScrollDown] and [ScrollUp] panic before any
    call is issued, whatever the draws. *)
Lemma ScrollDown_small_panics s distance r :
  0 <= distance < 10 -> ScrollDown s distance r = Panic [] IntnPanic.
Proof.
  intros Hd. unfold ScrollDown. rewrite bind_Intn by lia.
  pose proof (Z.mod_pos_bound (raw r) 10 ltac:(lia)) as Hk.
  destruct (chunks_range _ Hk) as [-> [n ->]].
  unfold bind.
  rewrite times_panics with (msg := IntnPanic); [reflexivity|].
  unfold scrollDownChunk, bind.
  rewrite scrollAmount_panics; [reflexivity|].
  apply quo_small_chunk; lia.
Qed.

Lemma ScrollUp_small_panics s distance r :
  0 <= distance < 10 -> ScrollUp s distance r = Panic [] IntnPanic.
Proof.
  intros Hd. unfold ScrollUp. rewrite bind_Intn by lia.
  pose proof (Z.mod_pos_bound (raw r) 10 ltac:(lia)) as Hk.
  destruct (chunks_range _ Hk) as [-> [n ->]].
  unfold bind.
  rewrite times_panics with (msg := IntnPanic); [reflexivity|].
  unfold scrollUpChunk, bind.
  rewrite scrollAmount_panics; [reflexivity|].
  apply quo_small_chunk; lia.
Qed.

(** C2.  Scroll planning is not total: with a distance of 0, [ScrollDown]
    and [ScrollUp] panic in [rand.Intn] for every scroller and every sequence
    of draws, and so do [ScrollToTop] at the top of the page and
    [ScrollToBottom] at its bottom. *)
Theorem C2_scroll_zero_distance_panics s rng :
  ScrollDown s 0 rng = Panic [] "invalid argument to Intn"
  /\ ScrollUp s 0 rng = Panic [] "invalid argument to Intn"
  /\ ScrollToTop s 0 rng = Panic [] "invalid argument to Intn"
  /\ (forall h, ScrollToBottom s h h rng
                = Panic [] "invalid argument to Intn").
Proof.
  repeat split.
  - apply ScrollDown_small_panics; lia.
  - apply ScrollUp_small_panics; lia.
  - apply ScrollUp_small_panics; lia.
  - intros h. unfold ScrollToBottom, GoInt.sub. rewrite Z.sub_diag.
    apply ScrollDown_small_panics. change (GoInt.wrap64 0) with 0. lia.
Qed.

Lemma forwardDeltas_app t1 t2 :
  forwardDeltas (t1 ++ t2) = forwardDeltas t1 ++ forwardDeltas t2.
Proof. apply flat_map_app. Qed.

Lemma scrollAmount_returns chunkSize :
  2 <= chunkSize < 2 ^ 62 ->
  returns (scrollAmount chunkSize)
    (fun a (t : list Event) => t = [] /\ deltaWithin chunkSize a).
Proof.
  intros Hc. unfold scrollAmount, GoInt.quo, GoInt.add, GoInt.sub.
  rewrite !Z.quot_div_nonneg by lia.
  pose proof (Z.div_pos chunkSize 4 ltac:(lia) ltac:(lia)) as H4.
  pose proof (Z.div_le_upper_bound chunkSize 4 chunkSize
                ltac:(lia) ltac:(lia)) as H4'.
  pose proof (Z.div_le_lower_bound chunkSize 2 1 ltac:(lia) ltac:(lia)) as H2.
  pose proof (Z.div_le_upper_bound chunkSize 2 chunkSize
                ltac:(lia) ltac:(lia)) as H2'.
  rewrite (GoIntFacts.wrap64_small (chunkSize / 2))
    by (unfold GoInt.inRange; lia).
  rewrite (GoIntFacts.wrap64_small (chunkSize / 4))
    by (unfold GoInt.inRange; lia).
  apply returns_bind_Intn; [lia | intros n Hn].
  apply returns_ret. split; [reflexivity|].
  rewrite (GoIntFacts.wrap64_small (chunkSize + n))
    by (unfold GoInt.inRange; lia).
  rewrite GoIntFacts.wrap64_small by (unfold GoInt.inRange; lia).
  unfold deltaWithin. lia.
Qed.

Lemma pace_returns s :
  speedsValid s -> returns (pace s) (fun _ t => forwardDeltas t = []).
Proof.
  intros (H0 & H1 & H2). unfold pace, GoInt.add, GoInt.sub.
  rewrite (GoIntFacts.wrap64_small (speedMax s - speedMin s))
    by (unfold GoInt.inRange; lia).
  rewrite (GoIntFacts.wrap64_small (speedMax s - speedMin s + 1))
    by (unfold GoInt.inRange; lia).
  apply returns_bind_Intn; [lia | intros k Hk].
  apply returns_bind_emit.
  apply returns_bind_Float64. intros p _.
  destruct (Qltb _ _).
  - apply returns_bind_Intn; [lia | intros n _].
    now apply returns_emit.
  - now apply returns_ret.
Qed.

Lemma deltaWithin_half chunkSize a :
  2 <= chunkSize < 2 ^ 62 -> deltaWithin chunkSize a ->
  2 <= a < 2 ^ 63 /\ 0 < GoInt.quo a 2.
Proof.
  intros Hc [Hlo Hhi].
  assert (H4 : chunkSize / 4 <= chunkSize / 2).
  { apply Z.div_le_lower_bound; [lia|].
    pose proof (Z.mul_div_le chunkSize 4 ltac:(lia)). lia. }
  pose proof (Z.mul_div_le chunkSize 4 ltac:(lia)) as H4'.
  pose proof (Z.mul_div_le chunkSize 2 ltac:(lia)) as H2'.
  pose proof (Z.div_pos chunkSize 4 ltac:(lia) ltac:(lia)) as H4p.
  assert (Ha : 2 <= a < 2 ^ 63) by lia.
  split; [assumption|].
  unfold GoInt.quo. rewrite Z.quot_div_nonneg by lia.
  pose proof (Z.div_le_lower_bound a 2 1 ltac:(lia) ltac:(lia)).
  pose proof (Z.div_le_upper_bound a 2 a ltac:(lia) ltac:(lia)).
  rewrite GoIntFacts.wrap64_small by (unfold GoInt.inRange; lia). lia.
Qed.

Lemma scrollDownChunk_returns s chunks chunkSize :
  speedsValid s -> 2 <= chunkSize < 2 ^ 62 ->
  returns (scrollDownChunk s chunks chunkSize)
    (fun _ t => exists a, forwardDeltas t = [a] /\ deltaWithin chunkSize a).
Proof.
  intros Hs Hc. unfold scrollDownChunk.
  eapply returns_bind; [apply (scrollAmount_returns _ Hc) |].
  intros a t1 [-> Ha]. simpl.
  destruct (deltaWithin_half _ _ Hc Ha) as [_ Hhalf].
  apply returns_bind_emit.
  eapply returns_bind; [apply (pace_returns _ Hs) |].
  intros [] t2 Ht2. cbv beta in Ht2.
  apply returns_bind_Float64. intros q _.
  destruct (Qltb _ _).
  - apply returns_bind_Intn; [assumption | intros b _].
    apply returns_bind_emit.
    apply returns_bind_Intn; [lia | intros n _].
    apply returns_emit. exists a. split; [| assumption].
    simpl. rewrite forwardDeltas_app, Ht2. reflexivity.
  - apply returns_ret. exists a. split; [| assumption].
    simpl. rewrite forwardDeltas_app, Ht2. reflexivity.
Qed.

Lemma scrollUpChunk_returns s chunks chunkSize :
  speedsValid s -> 2 <= chunkSize < 2 ^ 62 ->
  returns (scrollUpChunk s chunks chunkSize)
    (fun _ t => exists a, forwardDeltas t = [- a]
                          /\ deltaWithin chunkSize a).
Proof.
  intros Hs Hc. unfold scrollUpChunk.
  eapply returns_bind; [apply (scrollAmount_returns _ Hc) |].
  intros a t1 [-> Ha]. simpl.
  destruct (deltaWithin_half _ _ Hc Ha) as [Hr _].
  apply returns_bind_emit.
  eapply returns_weaken; [apply (pace_returns _ Hs) |].
  intros [] t2 Ht2. cbv beta in Ht2. exists a. split; [| assumption].
  simpl. rewrite Ht2. unfold GoInt.neg.
  rewrite GoIntFacts.wrap64_small by (unfold GoInt.inRange; lia). reflexivity.
Qed.

(** The loop: one delta per iteration. *)
Lemma times_returns (body : M Event unit) (Q : Z -> Prop) n :
  returns body (fun _ t => exists a, forwardDeltas t = [a] /\ Q a) ->
  returns (times n body)
    (fun _ t => List.length (forwardDeltas t) = n
                /\ Forall Q (forwardDeltas t)).
Proof.
  intros Hbody. induction n as [| n IH]; simpl.
  - apply returns_ret. split; [reflexivity | constructor].
  - eapply returns_bind; [apply Hbody |].
    intros _ t1 (a & Ht1 & Ha).
    eapply returns_weaken; [apply IH |].
    intros _ t2 [Hlen Hall].
    rewrite forwardDeltas_app, Ht1. simpl. split; [now f_equal|].
    now constructor.
Qed.

Lemma sum_bounds lo hi l :
  Forall (fun d => lo <= d <= hi) l ->
  Z.of_nat (List.length l) * lo <= sum l <= Z.of_nat (List.length l) * hi.
Proof.
  induction 1 as [| d l Hd _ IH]; [simpl; lia|].
  change (sum (d :: l)) with (d + sum l).
  rewrite length_cons, Nat2Z.inj_succ. lia.
Qed.

(** The sum of deltas drawn for [chunks] chunks of a distance stays within a
    quarter of the distance plus one unit per chunk. *)
Lemma sum_tolerance distance chunks total :
  0 <= distance -> 5 <= chunks ->
  let chunkSize := distance / chunks in
  chunks * (chunkSize - chunkSize / 4) <= total
    <= chunks * (chunkSize + chunkSize / 2 - 1 - chunkSize / 4) ->
  4 * Z.abs (total - distance) <= distance + 4 * chunks.
Proof.
  intros Hd Hc chunkSize Htotal.
  pose proof (Z.div_mod distance chunks ltac:(lia)) as E.
  pose proof (Z.mod_pos_bound distance chunks ltac:(lia)) as B.
  fold chunkSize in E.
  pose proof (Z.div_mod chunkSize 4 ltac:(lia)) as E4.
  pose proof (Z.mod_pos_bound chunkSize 4 ltac:(lia)) as B4.
  pose proof (Z.div_mod chunkSize 2 ltac:(lia)) as E2.
  pose proof (Z.mod_pos_bound chunkSize 2 ltac:(lia)) as B2.
  set (q4 := chunkSize / 4) in *. set (q2 := chunkSize / 2) in *.
  set (r := distance mod chunks) in *.
  assert (L : 4 * (chunks * q4) <= chunks * chunkSize) by nia.
  assert (U : 4 * (chunks * (q2 - 1 - q4)) <= chunks * chunkSize) by nia.
  lia.
Qed.

(** C4 (as amended).  For a scroller with 0 <= speedMin <= speedMax and a
    distance of at least 28, [ScrollDown] returns a plan of 5 to 14 chunks
    whose deltas are all positive and add up to the distance within a
    quarter of the distance plus one unit per chunk; [ScrollUp] does the same
    with negative deltas, which add up to minus the distance within the same
    tolerance.  Scroll backs are not counted. *)
Theorem C4_forward_deltas s distance rng :
  speedsValid s -> 28 <= distance < 2 ^ 62 ->
  (exists rng' tr,
     ScrollDown s distance rng = Ok None rng' tr
     /\ let ds := forwardDeltas tr in
        let chunkCount := Z.of_nat (List.length ds) in
        5 <= chunkCount <= 14
        /\ Forall (fun d => 0 < d) ds
        /\ 4 * Z.abs (sum ds - distance) <= distance + 4 * chunkCount)
  /\
  (exists rng' tr,
     ScrollUp s distance rng = Ok None rng' tr
     /\ let ds := forwardDeltas tr in
        let chunkCount := Z.of_nat (List.length ds) in
        5 <= chunkCount <= 14
        /\ Forall (fun d => d < 0) ds
        /\ 4 * Z.abs (sum ds - - distance) <= distance + 4 * chunkCount).
Proof.
  intros Hs Hd.
  assert (Hchunk : forall k, 0 <= k < 10 ->
            GoInt.add 5 k = 5 + k
            /\ GoInt.quo distance (5 + k) = distance / (5 + k)
            /\ 2 <= distance / (5 + k) < 2 ^ 62).
  { intros k Hk. unfold GoInt.add, GoInt.quo.
    rewrite (GoIntFacts.wrap64_small (5 + k)) by (unfold GoInt.inRange; lia).
    rewrite Z.quot_div_nonneg by lia.
    pose proof (Z.div_le_lower_bound distance (5 + k) 2
                  ltac:(lia) ltac:(lia)).
    pose proof (Z.div_le_upper_bound distance (5 + k) distance
                  ltac:(lia) ltac:(nia)).
    rewrite GoIntFacts.wrap64_small by (unfold GoInt.inRange; lia). lia. }
  split.
  - assert (H : returns (ScrollDown s distance)
        (fun e tr => e = None
           /\ 5 <= Z.of_nat (List.length (forwardDeltas tr)) <= 14
           /\ Forall (fun d => 0 < d) (forwardDeltas tr)
           /\ 4 * Z.abs (sum (forwardDeltas tr) - distance)
              <= distance + 4 * Z.of_nat (List.length (forwardDeltas tr)))).
    { unfold ScrollDown.
      apply returns_bind_Intn; [lia | intros k Hk].
      destruct (Hchunk k Hk) as (-> & -> & Hc).
      eapply returns_bind;
        [apply times_returns, (scrollDownChunk_returns _ _ _ Hs Hc) |].
      intros _ t1 [Hlen Hall]. apply returns_ret.
      rewrite app_nil_r. split; [reflexivity|].
      rewrite Hlen, Z2Nat.id by lia. split; [lia|]. split.
      - eapply Forall_impl; [| exact Hall]. intros a [Ha _].
        pose proof (Z.mul_div_le (distance / (5 + k)) 4 ltac:(lia)). lia.
      - apply sum_tolerance; [lia | lia |].
        apply sum_bounds in Hall. rewrite Hlen, Z2Nat.id in Hall by lia.
        exact Hall. }
    destruct (H rng) as (e & rng' & tr & Hrun & -> & Hrest).
    now exists rng', tr.
  - assert (H : returns (ScrollUp s distance)
        (fun e tr => e = None
           /\ 5 <= Z.of_nat (List.length (forwardDeltas tr)) <= 14
           /\ Forall (fun d => d < 0) (forwardDeltas tr)
           /\ 4 * Z.abs (sum (forwardDeltas tr) - - distance)
              <= distance + 4 * Z.of_nat (List.length (forwardDeltas tr)))).
    { unfold ScrollUp.
      apply returns_bind_Intn; [lia | intros k Hk].
      destruct (Hchunk k Hk) as (-> & -> & Hc).
      eapply returns_bind;
        [apply (times_returns _
                  (fun d => deltaWithin (distance / (5 + k)) (- d))) |].
      { eapply returns_weaken;
          [apply (scrollUpChunk_returns _ (5 + k) _ Hs Hc) |].
        intros _ t (a & Ht & Ha). exists (- a).
        rewrite Z.opp_involutive. auto. }
      intros _ t1 [Hlen Hall]. apply returns_ret.
      rewrite app_nil_r. split; [reflexivity|].
      rewrite Hlen, Z2Nat.id by lia. split; [lia|]. split.
      - eapply Forall_impl; [| exact Hall]. intros a [Ha _].
        pose proof (Z.mul_div_le (distance / (5 + k)) 4 ltac:(lia)). lia.
      - assert (Hneg : Forall (fun d =>
                  - (distance / (5 + k) + distance / (5 + k) / 2 - 1
                     - distance / (5 + k) / 4) <= d
                  <= - (distance / (5 + k) - distance / (5 + k) / 4))
                  (forwardDeltas t1)).
        { eapply Forall_impl; [| exact Hall]. intros a [Ha1 Ha2]. lia. }
        apply sum_bounds in Hneg. rewrite Hlen, Z2Nat.id in Hneg by lia.
        replace (sum (forwardDeltas t1) - - distance)
          with (- (- sum (forwardDeltas t1) - distance)) by lia.
        rewrite Z.abs_opp.
        apply sum_tolerance; [lia | lia | lia]. }
    destruct (H rng) as (e & rng' & tr & Hrun & -> & Hrest).
    now exists rng', tr.
Qed.

(** The theorem at the scroller (100, 300, 3/10, 1/5), the distance 1000 and
    the draws 0, 0, 0, ... *)
Lemma C4_forward_deltas_witness :
  speedsValid (NewScroller 100 300 (3 # 10) (1 # 5))
  /\ 28 <= 1000 < 2 ^ 62
  /\ (exists rng' tr,
        ScrollDown (NewScroller 100 300 (3 # 10) (1 # 5)) 1000 (fromList [])
        = Ok None rng' tr
        /\ let ds := forwardDeltas tr in
           let chunkCount := Z.of_nat (List.length ds) in
           5 <= chunkCount <= 14
           /\ Forall (fun d => 0 < d) ds
           /\ 4 * Z.abs (sum ds - 1000) <= 1000 + 4 * chunkCount).
Proof.
  assert (Hs : speedsValid (NewScroller 100 300 (3 # 10) (1 # 5)))
    by (unfold speedsValid; simpl; lia).
  assert (Hd : 28 <= 1000 < 2 ^ 62) by lia.
  split; [exact Hs|]. split; [exact Hd|].
  exact (proj1 (C4_forward_deltas _ 1000 (fromList []) Hs Hd)).
Defined.

(** C4, the claim as stated fails: for the distance 1000 and the draws
    0, 0, 0, ... the plan has 5 chunks of 150 units; their sum, 750, is 250
    units away from the distance, which is more than the 5 units of
    tolerance. *)
Lemma C4_sum_off_by_more_than_chunk_count :
  let tr := traceOf (ScrollDown (NewScroller 100 300 0 0) 1000
                                (fromList [])) in
  let ds := forwardDeltas tr in
  ds = [150; 150; 150; 150; 150]
  /\ ~ (Z.abs (sum ds - 1000) <= Z.of_nat (List.length ds)).
Proof.
  split; [reflexivity|].
  intros H. apply H. reflexivity.
Qed.

End ScrollingFacts.

(** *** The Bezier curve *)

Module BezierFacts.
Import Mouse.
Local Open Scope R_scope.

(** The loop of [binomialCoefficient] computes the binomial coefficient
    [C n k] of the standard library. *)
Lemma C_step (n j : nat) :
  (j < n)%nat -> C n (S j) = C n j * INR (n - j) / INR (S j).
Proof.
  intros Hj. unfold C.
  replace (n - j)%nat with (S (n - S j)) by lia.
  rewrite !fact_simpl, !mult_INR.
  pose proof (INR_fact_neq_0 j). pose proof (INR_fact_neq_0 (n - S j)).
  pose proof (not_0_INR (S j) ltac:(lia)).
  pose proof (not_0_INR (S (n - S j)) ltac:(lia)).
  field. repeat split; assumption.
Qed.

Lemma C_0 n : C n 0 = 1.
Proof.
  unfold C. rewrite Nat.sub_0_r. simpl fact. simpl INR.
  pose proof (INR_fact_neq_0 n). field. assumption.
Qed.

Lemma C_diag n : C n n = 1.
Proof.
  unfold C. rewrite Nat.sub_diag. simpl fact. simpl INR.
  pose proof (INR_fact_neq_0 n). field. assumption.
Qed.

Lemma binomialLoop_C (n : nat) iterations :
  forall j : nat, (j + iterations <= n)%nat ->
    binomialLoop (Z.of_nat n) iterations (Z.of_nat j) (C n j)
    = C n (j + iterations).
Proof.
  induction iterations as [| it IH]; intros j Hj; simpl.
  - now rewrite Nat.add_0_r.
  - replace (Z.of_nat j + 1)%Z with (Z.of_nat (S j)) by lia.
    replace (Z.of_nat n - Z.of_nat j)%Z with (Z.of_nat (n - j)) by lia.
    rewrite <- !INR_IZR_INZ, <- C_step by lia.
    rewrite IH by lia. f_equal. lia.
Qed.

Lemma binomialCoefficient_C (n k : nat) :
  (k <= n)%nat -> binomialCoefficient (Z.of_nat n) (Z.of_nat k) = C n k.
Proof.
  intros Hk. unfold binomialCoefficient.
  destruct (Z.ltb_spec (Z.of_nat n) (Z.of_nat k)); [lia|].
  destruct (Z.eqb_spec (Z.of_nat k) 0) as [E0 | N0]; simpl.
  - replace k with 0%nat by lia. now rewrite C_0.
  - destruct (Z.eqb_spec (Z.of_nat k) (Z.of_nat n)) as [En | Nn].
    + replace k with n by lia. now rewrite C_diag.
    + rewrite Nat2Z.id. rewrite <- (C_0 n).
      apply (binomialLoop_C n k 0). lia.
Qed.













End BezierFacts.

(** *** Properties of the mouse mover *)

Module MouseFacts.
Import Effects EffectsFacts Mouse BezierFacts.
Local Open Scope go_scope.









(** The loop body, run: two to five draws, two or four calls. *)
Lemma moveStep_run m len i point r :
  let delay := stepDelay m (drawAt r 0 mod 10) (float64Of (drawAt r 1)) in
  moveStep m len i point r
  = if (0 <? i) && (i <? len - 1) then
      if Qltb (float64Of (drawAt r 2)) (microCorrectionProb m) then
        Ok tt (advanceBy 5 r)
           [ MoveAlong PathPoint point;
             MoveAlong Correction
               (correctionOf point (float64Of (drawAt r 3))
                             (float64Of (drawAt r 4)));
             Sleep HalfDelay (GoInt.quo delay 2);
             Sleep StepDelay delay ]
      else
        Ok tt (advanceBy 3 r)
           [ MoveAlong PathPoint point; Sleep StepDelay delay ]
    else
      Ok tt (advanceBy 2 r)
         [ MoveAlong PathPoint point; Sleep StepDelay delay ].
Proof.
  unfold moveStep. rewrite bind_Intn by lia. rewrite bind_Float64.
  unfold bind, emit, Float64, ret.
  destruct ((0 <? i) && (i <? len - 1)); [| reflexivity].
  cbn [raw advance draws cursor].
  change (draws r (S (S (cursor r)))) with (drawAt r 2).
  destruct (Qltb _ _); reflexivity.
Qed.

Lemma Q2R_inject_Z z : Q2R (inject_Z z) = IZR z.
Proof. unfold Q2R, inject_Z. simpl. field. Qed.

Lemma Q2R_two : Q2R 2 = 2%R.
Proof. unfold Q2R. simpl. field. Qed.


(** With a speed variation of [0, 1] the variation never exceeds the base
    delay, so that the delay of a step lies between 0 and 28 ms. *)
Lemma stepDelay_range m b v :
  (0 <= speedVariation m <= 1)%Q -> 0 <= b < 10 -> (0 <= v < 1)%Q ->
  0 <= stepDelay m b v <= 28 * Millisecond
  /\ 0 <= GoInt.quo (stepDelay m b v) 2.
Proof.
  intros [Hs0 Hs1] Hb [Hv0 Hv1]. unfold stepDelay.
  set (q := (inject_Z (5 + b) * speedVariation m * (v * 2 - 1))%Q).
  assert (Hq : (inject_Z (- (5 + b)) <= q /\ q <= inject_Z (5 + b))%Q).
  { apply Qle_Rle in Hs0, Hs1, Hv0. apply Qlt_Rlt in Hv1.
    rewrite RMicromega.Q2R_0 in Hs0, Hv0.
    rewrite RMicromega.Q2R_1 in Hs1, Hv1.
    assert (HC : (0 <= IZR (5 + b))%R) by (apply IZR_le; lia).
    split; apply Rle_Qle; unfold q;
      repeat first [ rewrite Q2R_mult | rewrite Q2R_minus
                   | rewrite Q2R_inject_Z | rewrite opp_IZR
                   | rewrite Q2R_two | rewrite RMicromega.Q2R_1 ];
      set (C := IZR (5 + b)) in *; set (SV := Q2R (speedVariation m)) in *;
      set (V := Q2R v) in *.
    all: assert (H1 : (-1 <= SV * (V * 2 - 1) <= 1)%R)
      by (pose proof (Rmult_le_pos SV (1 - (V * 2 - 1))
                        ltac:(lra) ltac:(lra));
          pose proof (Rmult_le_pos SV ((V * 2 - 1) + 1)
                        ltac:(lra) ltac:(lra)); lra).
    all: pose proof (Rmult_le_pos C (1 - SV * (V * 2 - 1))
                       ltac:(lra) ltac:(lra)).
    all: pose proof (Rmult_le_pos C (1 + SV * (V * 2 - 1))
                       ltac:(lra) ltac:(lra)).
    all: lra. }
  assert (Ht : - (5 + b) <= truncate q <= 5 + b).
  { destruct Hq as [Hlo Hhi]. unfold truncate. clearbody q.
    destruct q as [n d]. unfold Qle, inject_Z in Hlo, Hhi.
    cbn [Qnum Qden] in *.
    assert (Hd : 0 < Z.pos d) by reflexivity.
    revert Hlo Hhi Hd. generalize (Z.pos d). intros d' Hlo Hhi Hd.
    Z.to_euclidean_division_equations. nia. }
  unfold ms, GoInt.add, GoInt.mul, GoInt.quo, Millisecond.
  rewrite (GoIntFacts.wrap64_small (5 + b + truncate q))
    by (unfold GoInt.inRange; lia).
  rewrite (GoIntFacts.wrap64_small ((5 + b + truncate q) * 1000000))
    by (unfold GoInt.inRange; lia).
  set (n := 5 + b + truncate q) in *.
  assert (Hn : 0 <= n <= 28) by (unfold n; lia).
  assert (Hquo : 0 <= n * 1000000 ÷ 2 <= n * 1000000).
  { rewrite Z.quot_div_nonneg by lia. split.
    - apply Z.div_pos; lia.
    - apply Z.div_le_upper_bound; lia. }
  rewrite GoIntFacts.wrap64_small by (unfold GoInt.inRange; lia).
  lia.
Qed.





Lemma silent_trace {A} (m : M Event A) r : silent m -> traceOf (m r) = [].
Proof.
  intros H. specialize (H r). destruct (traceOf (m r)); [reflexivity|].
  inversion H. contradiction.
Qed.

Lemma silent_store s i p : silent (@store Event s i p).
Proof.
  unfold silent, store. destruct (_ || _);
    [apply always_panic | apply always_ret].
Qed.

Lemma silent_controlLoop m start end_ iterations :
  forall i cps, silent (controlLoop m start end_ iterations i cps).
Proof.
  unfold silent.
  induction iterations as [| it IH]; intros i cps; simpl.
  - apply always_ret.
  - apply always_bind.
    + unfold controlPoint.
      apply always_bind; [apply always_Float64 | intros; apply always_ret].
    + intros p. apply always_bind; [apply silent_store | intros; apply IH].
Qed.

Lemma silent_pathWithOvershoot m start end_ :
  silent (pathWithOvershoot m start end_).
Proof.
  unfold silent, pathWithOvershoot, generateBezierPath, generateOvershoot.
  apply always_bind.
  - apply always_bind.
    { unfold make. destruct (_ <? _);
        [apply always_panic | apply always_ret]. }
    intros cp0. apply always_bind; [apply silent_store | intros cp1].
    apply always_bind; [apply silent_store | intros cp2].
    apply always_bind; [apply silent_controlLoop | intros cps].
    apply always_bind; [apply always_Intn | intros; apply always_ret].
  - intros path. apply always_bind; [apply always_Float64 | intros o].
    destruct (Qltb _ _); [| apply always_ret].
    apply always_bind; [| intros overshoot; apply always_ret].
    apply always_bind; [apply always_Float64 | intros d].
    apply always_bind; [apply always_Float64 | intros a].
    apply always_ret.
Qed.

(** The trace of [moveToPoint] is the trace of its loop. *)
Lemma moveToPoint_trace m start end_ r :
  traceOf (moveToPoint m start end_ r) = []
  \/ exists path r1,
       pathWithOvershoot m start end_ r = Ok path r1 []
       /\ traceOf (moveToPoint m start end_ r)
          = traceOf (moveAlong m (Z.of_nat (List.length path)) 0 path r1).
Proof.
  unfold moveToPoint. rewrite traceOf_bind.
  pose proof (silent_trace _ r (silent_pathWithOvershoot m start end_)) as Hs.
  destruct (pathWithOvershoot m start end_ r) as [path r1 t | t msg];
    simpl in Hs; subst t.
  - right. exists path, r1. split; [reflexivity|].
    simpl. rewrite traceOf_bind.
    destruct (moveAlong _ _ _ _ _); simpl; [apply app_nil_r | reflexivity].
  - now left.
Qed.












End MouseFacts.

(** *** Properties of the construction *)

Module MainFacts.
Import Config Main.

(** C3 (as amended).  Construction checks the zone identifier and nothing
    else of a profile.  Whatever the zone resolver and the configuration:
    when the zone does not resolve, [initStealth] fails with the resolver's
    error; when it resolves, [initStealth] succeeds and every component holds
    the configured values as they are, probabilities and min/max pairs
    unchecked.  The typer, mouse mover, scroller and timing controller
    constructors cannot fail at all. *)
Theorem C3_construction_checks_only_the_zone LoadLocation cfg :
  match LoadLocation (Timezone (Scheduling cfg)) with
  | inr err =>
      initStealth LoadLocation cfg
      = inr ("Failed to initialize scheduler: " ++ err)%string
  | inl loc =>
      initStealth LoadLocation cfg
      = inl (mkComponents
               (Timing.mkTimingController
                  (ActionDelayMin (Timing cfg)) (ActionDelayMax (Timing cfg))
                  (ThinkTimeMin (Timing cfg)) (ThinkTimeMax (Timing cfg))
                  (ReadingSpeedWPM (Timing cfg)))
               (Typing.mkTyper
                  (WPMMin (Typing cfg)) (WPMMax (Typing cfg))
                  (TypoProbability (Typing cfg))
                  (TypingPauseProbability (Typing cfg)))
               (Mouse.mkMouseMover
                  (BezierPoints (Mouse cfg)) (SpeedVariation (Mouse cfg))
                  (OvershootProbability (Mouse cfg))
                  (MicroCorrectionProbability (Mouse cfg)))
               (Scrolling.mkScroller
                  (SpeedMin (Scrolling cfg)) (SpeedMax (Scrolling cfg))
                  (ScrollBackProbability (Scrolling cfg))
                  (ScrollingPauseProbability (Scrolling cfg)))
               (Sched.mkScheduler
                  (BusinessHoursStart (Scheduling cfg))
                  (BusinessHoursEnd (Scheduling cfg))
                  loc
                  (WeekendActivity (Scheduling cfg))
                  (BreakDurationMin (Scheduling cfg))
                  (BreakDurationMax (Scheduling cfg))
                  (BreakProbability (Scheduling cfg))))
  end.
Proof.
  unfold initStealth, Sched.NewScheduler.
  destruct (LoadLocation (Timezone (Scheduling cfg))); reflexivity.
Qed.

(** [validateConfig] reads nothing of the stealth section but the zone
    identifier. *)
Lemma validateConfig_reads_only_the_zone LoadLocation c s1 s2 :
  Timezone (Scheduling s1) = Timezone (Scheduling s2) ->
  validateConfig LoadLocation
    (mkConfig (Search c) (Connections c) (Messaging c) s1 (Browser c)
              (Logging c))
  = validateConfig LoadLocation
      (mkConfig (Search c) (Connections c) (Messaging c) s2 (Browser c)
                (Logging c)).
Proof. intros H. unfold validateConfig. simpl. now rewrite H. Qed.

(** C3, the claim as stated fails: the profile above is not valid, and yet
    [validateConfig] accepts it and every constructor succeeds; the typer
    built holds wpmMin 100, wpmMax 50 and the typo probability 2. *)
Lemma C3_invalid_profile_is_constructed :
  profileValid_spec Sched.builtinLocation invertedStealth = false
  /\ validateConfig Sched.builtinLocation invertedConfig = None
  /\ exists components,
       loadAndInit Sched.builtinLocation invertedConfig = inl components
       /\ typer components = Typing.mkTyper 100 50 2 (- (1))%Q
       /\ scroller components = Scrolling.mkScroller 300 100 (1 # 10) (1 # 5).
Proof.
  split; [reflexivity | split; [reflexivity |]].
  eexists. split; [reflexivity |]. split; reflexivity.
Qed.

End MainFacts.

(** *** Runs that may panic *)

Module OutcomeFacts.
Import Effects EffectsFacts.
Local Open Scope go_scope.

Lemma outcome_ret {E A} (a : A) (ok : A -> list E -> Prop) bad :
  ok a [] -> outcome (ret a) ok bad.
Proof. intros H r. exact H. Qed.

Lemma outcome_panic {E A} msg (ok : A -> list E -> Prop) (bad : list E -> Prop) :
  bad [] -> outcome (panic msg) ok bad.
Proof. intros H r. exact H. Qed.

Lemma outcome_emit {E} (e : E) (ok : unit -> list E -> Prop) bad :
  ok tt [e] -> outcome (emit e) ok bad.
Proof. intros H r. exact H. Qed.

Lemma outcome_bind {E A B} (m : M E A) (f : A -> M E B) mid midbad ok bad :
  outcome m mid midbad ->
  (forall t, midbad t -> bad t) ->
  (forall a t1, mid a t1 ->
     outcome (f a) (fun b t2 => ok b (t1 ++ t2)) (fun t2 => bad (t1 ++ t2))) ->
  outcome (bind m f) ok bad.
Proof.
  intros Hm Hbad Hf r. unfold bind.
  specialize (Hm r). destruct (m r) as [a r1 t1 | t1 msg]; [| auto].
  specialize (Hf a t1 Hm r1). now destruct (f a r1).
Qed.

Lemma outcome_bind_emit {E B} (e : E) (f : unit -> M E B) ok bad :
  outcome (f tt) (fun b t => ok b (e :: t)) (fun t => bad (e :: t)) ->
  outcome (bind (emit e) f) ok bad.
Proof.
  intros Hf.
  apply outcome_bind with (mid := fun _ t => t = [e]) (midbad := fun _ => False).
  - now apply outcome_emit.
  - tauto.
  - intros [] t1 ->. exact Hf.
Qed.

Lemma outcome_bind_Intn {E B} n (f : Z -> M E B) ok (bad : list E -> Prop) :
  (n <= 0 -> bad []) ->
  (forall k, 0 <= k < n -> outcome (f k) ok bad) ->
  outcome (bind (Intn n) f) ok bad.
Proof.
  intros Hn Hf r. unfold bind, Intn.
  destruct (Z.leb_spec n 0) as [H | H]; [auto|].
  pose proof (Z.mod_pos_bound (raw r) n H) as Hk.
  specialize (Hf _ Hk (advance r)). now destruct (f _ _).
Qed.

Lemma outcome_bind_Float64 {E B} (f : Q -> M E B) ok (bad : list E -> Prop) :
  (forall x, (0 <= x < 1)%Q -> outcome (f x) ok bad) ->
  outcome (bind Float64 f) ok bad.
Proof.
  intros Hf r. unfold bind, Float64.
  specialize (Hf _ (Float64_range (raw r)) (advance r)). now destruct (f _ _).
Qed.

Lemma outcome_weaken {E A} (m : M E A) (ok ok' : A -> list E -> Prop)
  (bad bad' : list E -> Prop) :
  outcome m ok bad ->
  (forall a t, ok a t -> ok' a t) -> (forall t, bad t -> bad' t) ->
  outcome m ok' bad'.
Proof.
  intros Hm Hok Hbad r. specialize (Hm r). destruct (m r); auto.
Qed.

Lemma outcome_mapEvents {E F A} (g : E -> F) (m : M E A) ok bad :
  outcome m (fun a t => ok a (map g t)) (fun t => bad (map g t)) ->
  outcome (mapEvents g m) ok bad.
Proof.
  intros Hm r. unfold mapEvents. specialize (Hm r). now destruct (m r).
Qed.

End OutcomeFacts.

(** *** The text field under the typer *)

Module TypingMore.
Import Effects EffectsFacts OutcomeFacts Typing TypingFacts.
Local Open Scope go_scope.

Lemma types_nil : types [] [].
Proof. intros c k. simpl. now rewrite app_nil_r. Qed.

Lemma types_app l1 l2 t1 t2 :
  types l1 t1 -> types l2 t2 -> types (l1 ++ l2) (t1 ++ t2).
Proof.
  unfold types, replay. intros H1 H2 c k.
  rewrite fold_left_app, H1, H2. now rewrite app_assoc.
Qed.

Lemma types_sleep p d : types [] [Sleep p d].
Proof. intros c k. simpl. now rewrite app_nil_r. Qed.

Lemma types_char ch : types [ch] [TypeChar ch].
Proof. intros c k. reflexivity. Qed.

Lemma types_typo w p1 d1 p2 d2 :
  types [] [TypeWrong w; Sleep p1 d1; PressBackspace; Sleep p2 d2].
Proof.
  intros c k. cbn. unfold backspace, insertChar. cbn.
  now rewrite removelast_last, app_nil_r.
Qed.

Lemma types_cons_nil l e t : types [] [e] -> types l t -> types l (e :: t).
Proof. intros He Ht. apply (types_app [] l [e] t He Ht). Qed.

Lemma prePause_types t :
  outcome (prePause t) (fun _ tr => types [] tr) (fun _ => False).
Proof.
  unfold prePause. apply outcome_bind_Float64. intros p _.
  destruct (Qltb _ _); [| apply outcome_ret, types_nil].
  apply outcome_bind_Intn; [lia|]. intros n _.
  apply outcome_emit, types_sleep.
Qed.

Lemma typo_types t msPerChar i :
  outcome (typo t msPerChar i) (fun _ tr => types [] tr) (fun _ => False).
Proof.
  unfold typo, getRandomChar. apply outcome_bind_Float64. intros q _.
  destruct (_ && _); [| apply outcome_ret, types_nil].
  apply outcome_bind with (mid := fun _ t => t = []) (midbad := fun _ => False);
    [| tauto |].
  { apply outcome_bind_Intn; [simpl; lia|]. intros n _. now apply outcome_ret. }
  intros w t1 ->. cbn [app].
  apply outcome_bind_emit.
  apply outcome_bind_Intn; [lia|]. intros n1 _.
  apply outcome_bind_emit.
  apply outcome_bind_emit.
  apply outcome_bind_Intn; [lia|]. intros n2 _.
  apply outcome_emit. apply types_typo.
Qed.

Lemma correctChar_types msPerChar ch :
  outcome (correctChar msPerChar ch)
          (fun _ tr => types [ch] tr) (fun tr => types [ch] tr).
Proof.
  unfold correctChar.
  apply outcome_bind_emit.
  apply outcome_bind_Intn; [intros _; apply types_char|]. intros n _.
  apply outcome_bind_emit.
  apply outcome_bind
    with (mid := fun _ t => types [] t) (midbad := fun _ => False); [| tauto |].
  { destruct (isPunctuation ch); [| apply outcome_ret, types_nil].
    apply outcome_bind_Intn; [lia|]. intros k _.
    apply outcome_emit, types_sleep. }
  intros [] t1 Ht1.
  apply outcome_weaken
    with (ok := fun _ t => types [] t) (bad := fun _ => False); [| | tauto].
  { destruct (isSpace ch); [| apply outcome_ret, types_nil].
    apply outcome_bind_Intn; [lia|]. intros k _.
    apply outcome_emit, types_sleep. }
  intros _ t2 Ht2.
  apply (types_app [ch] [] [TypeChar ch] (Sleep _ _ :: t1 ++ t2));
    [apply types_char|].
  apply types_cons_nil; [apply types_sleep|].
  apply (types_app [] [] t1 t2 Ht1 Ht2).
Qed.

Lemma typeChar_types t msPerChar i ch :
  outcome (typeChar t msPerChar i ch)
          (fun _ tr => types [ch] tr) (fun tr => types [ch] tr).
Proof.
  unfold typeChar.
  apply outcome_bind with (mid := fun _ t => types [] t) (midbad := fun _ => False);
    [apply prePause_types | tauto |].
  intros [] t1 Ht1.
  apply outcome_bind with (mid := fun _ t => types [] t) (midbad := fun _ => False);
    [apply typo_types | tauto |].
  intros [] t2 Ht2.
  apply outcome_weaken
    with (ok := fun _ tr => types [ch] tr) (bad := fun tr => types [ch] tr);
    [apply correctChar_types | |].
  - intros _ t3 Ht3. rewrite app_assoc.
    apply (types_app [] [ch]); [apply (types_app [] []) |]; assumption.
  - intros t3 Ht3. rewrite app_assoc.
    apply (types_app [] [ch]); [apply (types_app [] []) |]; assumption.
Qed.

Lemma typeRunes_types t msPerChar text :
  forall i,
    outcome (typeRunes t msPerChar i text)
            (fun _ tr => types (map fst text) tr)
            (fun tr => exists n, types (firstn n (map fst text)) tr).
Proof.
  induction text as [| [ch w] rest IH]; intros i; simpl typeRunes.
  - apply outcome_ret, types_nil.
  - apply outcome_bind
      with (mid := fun _ tr => types [ch] tr) (midbad := fun tr => types [ch] tr).
    + apply typeChar_types.
    + intros tr Htr. exists 1%nat. exact Htr.
    + intros [] t1 Ht1.
      apply outcome_weaken with (1 := IH (i + Z.pos w)).
      * intros _ t2 Ht2. apply (types_app [ch] _ _ _ Ht1 Ht2).
      * intros t2 [n Ht2]. exists (S n).
        apply (types_app [ch] _ _ _ Ht1 Ht2).
Qed.

Lemma TypeText_types t text :
  outcome (TypeText t text)
          (fun _ tr => types (map fst text) tr)
          (fun tr => exists n, types (firstn n (map fst text)) tr).
Proof.
  unfold TypeText.
  assert (Hfocus : types [] [Focus])
    by (intros c k; simpl; now rewrite app_nil_r).
  apply outcome_bind_emit.
  apply outcome_bind_Intn; [intros _; now exists 0%nat|]. intros n _.
  destruct (_ =? 0); [apply outcome_panic; now exists 0%nat|].
  apply outcome_bind
    with (mid := fun _ tr => types (map fst text) tr)
         (midbad := fun tr => exists n, types (firstn n (map fst text)) tr).
  - apply typeRunes_types.
  - intros tr [k Hk]. exists k. now apply types_cons_nil.
  - intros [] t1 Ht1. apply outcome_ret. rewrite app_nil_r.
    now apply types_cons_nil.
Qed.

(** X6.  The field after [TypeText]: typed into a field with no selection,
    the calls of a run that returns leave the field with the text appended,
    every wrong character having been deleted again; the calls of a run that
    panics leave it with the first characters of the text appended. *)
Theorem X6_TypeText_field t text rng c k :
  match TypeText t text rng with
  | Ok _ _ tr => replay (mkField c false k) tr
                 = mkField (c ++ map fst text) false k
  | Panic tr _ => exists n, replay (mkField c false k) tr
                           = mkField (c ++ firstn n (map fst text)) false k
  end.
Proof.
  pose proof (TypeText_types t text rng) as H.
  destruct (TypeText t text rng) as [a r tr | tr msg].
  - apply H.
  - destruct H as [n H]. exists n. apply H.
Qed.

Lemma replayClear_Typed g tr :
  fold_left clearKey (map Typed tr) g = fold_left key tr g.
Proof.
  revert g. induction tr as [| e tr IH]; intros g; simpl;
    [reflexivity | apply IH].
Qed.

Lemma cleared_then_typed l d1 d2 tr f :
  types l tr ->
  content (replayClear f
             (ClearFocus :: PressControl :: TypeKey 97 :: ReleaseControl
              :: ClearSleep d1 :: ClearBackspace :: ClearSleep d2
              :: map Typed tr)) = l.
Proof.
  intros Htr. unfold replayClear. cbn [fold_left clearKey].
  cbn [control andb Z.eqb Pos.eqb selected content]. unfold backspace.
  cbn [selected content control].
  rewrite replayClear_Typed. unfold types, replay in Htr.
  rewrite Htr. reflexivity.
Qed.

Lemma ClearAndType_types t text :
  outcome (ClearAndType t text)
    (fun _ tr => forall f, content (replayClear f tr) = map fst text)
    (fun tr => forall f, exists n,
                 content (replayClear f tr) = firstn n (map fst text)).
Proof.
  unfold ClearAndType.
  do 4 apply outcome_bind_emit.
  apply outcome_bind_Intn; [lia|]. intros n1 _.
  do 2 apply outcome_bind_emit.
  apply outcome_bind_Intn; [lia|]. intros n2 _.
  apply outcome_bind_emit.
  apply outcome_mapEvents.
  apply outcome_weaken with (1 := TypeText_types t text).
  - intros _ tr Htr f. now apply cleared_then_typed.
  - intros tr [n Htr] f. exists n. now apply cleared_then_typed.
Qed.

(** X7.  The field after [ClearAndType]: whatever the field held and
    whether part of it was selected, the calls of a run that returns leave
    it with the text alone; those of a run that panics, with the first
    characters of the text. *)
Theorem X7_ClearAndType_field t text rng f :
  match ClearAndType t text rng with
  | Ok _ _ tr => content (replayClear f tr) = map fst text
  | Panic tr _ => exists n, content (replayClear f tr)
                           = firstn n (map fst text)
  end.
Proof.
  pose proof (ClearAndType_types t text rng) as H.
  destruct (ClearAndType t text rng) as [a r tr | tr msg]; apply H.
Qed.

Lemma getRandomChar_lowercase k :
  0 <= k < 26 -> 97 <= nth (Z.to_nat k) chars 0 <= 122.
Proof.
  intros Hk.
  assert (H : forall n, (n < 26)%nat -> 97 <= nth n chars 0 <= 122).
  { intros n Hn. do 26 (destruct n as [| n]; [simpl; lia |]). lia. }
  apply H. lia.
Qed.

Lemma always_bind_getRandomChar {B} (f : rune -> M Event B) P :
  (forall w, 97 <= w <= 122 -> always (f w) P) ->
  always (bind getRandomChar f) P.
Proof.
  intros Hf r. unfold getRandomChar.
  pose proof (Z.mod_pos_bound (raw r) 26 ltac:(lia)) as Hk.
  specialize (Hf _ (getRandomChar_lowercase _ Hk) (advance r)).
  unfold bind at 1. rewrite bind_Intn by (simpl; lia).
  unfold ret at 1. change (Z.of_nat (List.length chars)) with 26.
  destruct (f _ _); simpl in *; assumption.
Qed.

Lemma fixed_pause lo k w :
  0 <= lo <= 1000 -> 0 <= k < w -> w <= 1000 ->
  lo * Millisecond <= ms (GoInt.add lo k) <= (lo + w - 1) * Millisecond.
Proof.
  intros Hlo Hk Hw. unfold GoInt.add.
  rewrite GoIntFacts.wrap64_small by (unfold GoInt.inRange; lia).
  rewrite ms_small by lia. unfold Millisecond. lia.
Qed.

Lemma typeChar_marks t msPerChar i ch :
  always (typeChar t msPerChar i ch)
         (fun e => typoIsLowercase e /\ fixedPauses e).
Proof.
  unfold typeChar, prePause, typo, correctChar.
  apply always_bind; [| intros _; apply always_bind; [| intros _]].
  - apply always_bind; [apply always_Float64 | intros p].
    destruct (Qltb _ _); [| apply always_ret].
    apply always_bind; [apply always_Intn | intros n].
    now apply always_emit.
  - apply always_bind; [apply always_Float64 | intros q].
    destruct (_ && _); [| apply always_ret].
    apply always_bind_getRandomChar. intros w Hw.
    apply always_bind; [now apply always_emit | intros _].
    apply always_bind; [apply always_Intn | intros n1].
    apply always_bind; [now apply always_emit | intros _].
    apply always_bind; [now apply always_emit | intros _].
    apply always_bind; [apply always_Intn | intros n2].
    now apply always_emit.
  - apply always_bind; [now apply always_emit | intros _].
    apply always_bind; [apply always_Intn | intros n].
    apply always_bind; [now apply always_emit | intros _].
    apply always_bind; [| intros _].
    + destruct (isPunctuation ch); [| apply always_ret].
      apply always_bind_Intn. intros k Hk. apply always_emit.
      split; [exact I|]. apply (fixed_pause 100 k 300); lia.
    + destruct (isSpace ch); [| apply always_ret].
      apply always_bind_Intn. intros k Hk. apply always_emit.
      split; [exact I|]. apply (fixed_pause 50 k 150); lia.
Qed.

Lemma typeRunes_marks t msPerChar text :
  forall i, always (typeRunes t msPerChar i text)
                   (fun e => typoIsLowercase e /\ fixedPauses e).
Proof.
  induction text as [| [c w] rest IH]; intros i; simpl.
  - apply always_ret.
  - apply always_bind; [apply typeChar_marks | intros _; apply IH].
Qed.

(** X8.  Whatever the typer, the text and the draws, every wrong character
    [TypeText] types is a lowercase letter a..z, every pause after a
    punctuation mark lasts between 100 and 399 milliseconds and every pause
    after a space between 50 and 199 milliseconds. *)
Theorem X8_TypeText_typos_and_pauses t text rng :
  Forall (fun e => typoIsLowercase e /\ fixedPauses e)
         (traceOf (TypeText t text rng)).
Proof.
  revert rng.
  change (always (TypeText t text)
                 (fun e => typoIsLowercase e /\ fixedPauses e)).
  unfold TypeText.
  apply always_bind; [now apply always_emit | intros _].
  apply always_bind; [apply always_Intn | intros n].
  destruct (_ =? 0); [apply always_panic |].
  apply always_bind; [apply typeRunes_marks | intros _; apply always_ret].
Qed.

End TypingMore.

(** *** Properties of the timing controller *)

Module TimingFacts.
Import Effects EffectsFacts Timing.
Local Open Scope go_scope.

(** [lo + Intn(hi-lo+1)] units of [unit] nanoseconds. *)
Lemma delay_between {E} lo hi unit (rng : Rand) :
  0 <= lo <= 1000000000 -> 0 <= hi <= 1000000000 ->
  0 < unit <= 1000000000 ->
  if lo <=? hi then
    exists n,
      (bind (Intn (GoInt.add (GoInt.sub hi lo) 1))
            (fun k => ret (GoInt.mul (GoInt.add lo k) unit)) : M E Z) rng
      = Ok (n * unit) (advance rng) []
      /\ lo <= n <= hi
  else
    (bind (Intn (GoInt.add (GoInt.sub hi lo) 1))
          (fun k => ret (GoInt.mul (GoInt.add lo k) unit)) : M E Z) rng
    = Panic [] "invalid argument to Intn".
Proof.
  intros Hlo Hhi Hu.
  unfold GoInt.add, GoInt.sub, GoInt.mul.
  rewrite (GoIntFacts.wrap64_small (hi - lo)) by (unfold GoInt.inRange; lia).
  rewrite (GoIntFacts.wrap64_small (hi - lo + 1))
    by (unfold GoInt.inRange; lia).
  destruct (Z.leb_spec lo hi) as [Hle | Hgt].
  - rewrite bind_Intn by lia.
    pose proof (Z.mod_pos_bound (raw rng) (hi - lo + 1) ltac:(lia)) as Hk.
    exists (lo + raw rng mod (hi - lo + 1)). split; [| lia].
    unfold ret.
    rewrite (GoIntFacts.wrap64_small (lo + _))
      by (unfold GoInt.inRange; lia).
    rewrite GoIntFacts.wrap64_small by (unfold GoInt.inRange; nia).
    reflexivity.
  - unfold bind, Intn.
    destruct (Z.leb_spec (hi - lo + 1) 0); [reflexivity | lia].
Qed.

(** X9.  [ActionDelay] and [ThinkTime], for bounds of at most 10^9
    seconds: when the minimum is at most the maximum, the delay is a whole
    number of seconds between them, bounds included, and takes one draw;
    when the minimum exceeds the maximum, the call panics. *)
Theorem X9_ActionDelay_ThinkTime t rng :
  0 <= actionDelayMin t <= 1000000000 ->
  0 <= actionDelayMax t <= 1000000000 ->
  0 <= thinkTimeMin t <= 1000000000 ->
  0 <= thinkTimeMax t <= 1000000000 ->
  (if actionDelayMin t <=? actionDelayMax t then
     exists n, @ActionDelay unit t rng = Ok (n * Second) (advance rng) []
               /\ actionDelayMin t <= n <= actionDelayMax t
   else @ActionDelay unit t rng = Panic [] "invalid argument to Intn")
  /\ (if thinkTimeMin t <=? thinkTimeMax t then
        exists n, @ThinkTime unit t rng = Ok (n * Second) (advance rng) []
                  /\ thinkTimeMin t <= n <= thinkTimeMax t
      else @ThinkTime unit t rng = Panic [] "invalid argument to Intn").
Proof.
  intros H1 H2 H3 H4. split.
  - apply (delay_between (actionDelayMin t) (actionDelayMax t) Second rng);
      unfold Second; lia.
  - apply (delay_between (thinkTimeMin t) (thinkTimeMax t) Second rng);
      unfold Second; lia.
Qed.

Lemma X9_ActionDelay_ThinkTime_witness :
  (exists n, @ActionDelay unit (NewTimingController 2 5 1 3 200)
                          (fromList [7]) = Ok (n * Second)
                          (advance (fromList [7])) []
             /\ 2 <= n <= 5)
  /\ (exists n, @ThinkTime unit (NewTimingController 2 5 1 3 200)
                           (fromList [7]) = Ok (n * Second)
                           (advance (fromList [7])) []
                /\ 1 <= n <= 3).
Proof.
  apply (X9_ActionDelay_ThinkTime (NewTimingController 2 5 1 3 200)
           (fromList [7])); simpl; lia.
Defined.

Lemma pause_between {E} lo w (rng : Rand) :
  0 <= lo <= 10000 -> 0 < w <= 10000 ->
  exists n,
    (bind (Intn w) (fun k => ret (GoInt.mul (GoInt.add lo k) Millisecond))
     : M E Z) rng = Ok (n * Millisecond) (advance rng) []
    /\ lo <= n < lo + w.
Proof.
  intros Hlo Hw. rewrite bind_Intn by lia.
  pose proof (Z.mod_pos_bound (raw rng) w ltac:(lia)) as Hk.
  exists (lo + raw rng mod w). split; [| lia].
  unfold ret, GoInt.add, GoInt.mul, Millisecond.
  rewrite (GoIntFacts.wrap64_small (lo + _)) by (unfold GoInt.inRange; lia).
  rewrite GoIntFacts.wrap64_small by (unfold GoInt.inRange; lia).
  reflexivity.
Qed.

(** X10.  [RandomPause] never panics and takes two draws; the first one
    chooses the kind of pause: a short one of 300 to 999 milliseconds when
    it is 0 modulo 3, a medium one of 1000 to 2999 when it is 1, a long one
    of 3000 to 7999 otherwise. *)
Theorem X10_RandomPause_ranges rng :
  exists n,
    @RandomPause unit rng = Ok (n * Millisecond) (advanceBy 2 rng) []
    /\ (if raw rng mod 3 =? 0 then 300 <= n <= 999
        else if raw rng mod 3 =? 1 then 1000 <= n <= 2999
        else 3000 <= n <= 7999).
Proof.
  unfold RandomPause. rewrite bind_Intn by lia.
  change (advanceBy 2 rng) with (advance (advance rng)).
  destruct (raw rng mod 3 =? 0); [| destruct (raw rng mod 3 =? 1)].
  - destruct (@pause_between unit 300 700 (advance rng)) as (n & Hn & Hr);
      [lia | lia |]. exists n. split; [exact Hn | lia].
  - destruct (@pause_between unit 1000 2000 (advance rng)) as (n & Hn & Hr);
      [lia | lia |]. exists n. split; [exact Hn | lia].
  - destruct (@pause_between unit 3000 5000 (advance rng)) as (n & Hn & Hr);
      [lia | lia |]. exists n. split; [exact Hn | lia].
Qed.

Lemma truncate_bounds (x : Q) :
  (0 <= x)%Q ->
  (inject_Z (Mouse.truncate x) <= x)%Q
  /\ (x < inject_Z (Mouse.truncate x + 1))%Q
  /\ 0 <= Mouse.truncate x.
Proof.
  destruct x as [a b]. unfold Qle, Qlt, Mouse.truncate. simpl.
  intros Ha. rewrite Z.mul_1_r in Ha.
  rewrite Z.quot_div_nonneg by lia.
  pose proof (Z.div_mod a (Z.pos b) ltac:(lia)) as Hdm.
  pose proof (Z.mod_pos_bound a (Z.pos b) ltac:(lia)) as Hm.
  pose proof (Z.div_pos a (Z.pos b) Ha ltac:(lia)).
  repeat split; nia.
Qed.

(** X11.  [ReadingTime], for a positive reading speed and a positive count
    of at most 10^8 words: it takes one draw, never panics and returns a
    whole number [k] of seconds within 20% of the time the words take at
    that speed, give or take the truncation to whole seconds and one more
    second: 0.8 * 60 * words / speed - 2 < k < 1.2 * 60 * words / speed + 1.
    The second of slack on either side is for the rounding of the float64
    operations, which can move the product across a whole number (a factor
    that rounds to 1.2, a product that rounds up to 9.0): the bounds stated
    here hold for the exact product and for the rounded one. *)
Theorem X11_ReadingTime t wordCount rng :
  0 < readingSpeedWPM t ->
  0 < wordCount <= 100000000 ->
  exists k,
    @ReadingTime unit t wordCount rng = Ok (k * Second) (advance rng) []
    /\ 0 <= k
    /\ 48 * wordCount < (k + 2) * readingSpeedWPM t
    /\ k * readingSpeedWPM t < 72 * wordCount + readingSpeedWPM t.
Proof.
  intros Hs Hw. unfold ReadingTime.
  destruct (Z.eqb_spec wordCount 0) as [-> | _]; [lia|].
  rewrite bind_Float64.
  pose proof (Float64_range (raw rng)) as Hr.
  set (r := float64Of (raw rng)) in *. clearbody r.
  set (s := (inject_Z wordCount / inject_Z (readingSpeedWPM t))%Q).
  assert (Hsw : (s * inject_Z (readingSpeedWPM t) == inject_Z wordCount)%Q).
  { unfold s. field. intros H. 
    assert (0 < inject_Z (readingSpeedWPM t))%Q
      by (rewrite <- (Zlt_Qlt 0); exact Hs).
    rewrite H in H0. now apply Qlt_irrefl in H0. }
  assert (Hwq : (0 < inject_Z (readingSpeedWPM t))%Q)
    by (rewrite <- (Zlt_Qlt 0); exact Hs).
  assert (Hs0 : (0 < s)%Q).
  { unfold s. apply Qlt_shift_div_l; [exact Hwq|].
    rewrite Qmult_0_l. rewrite <- (Zlt_Qlt 0). lia. }
  fold s. clearbody s.
  set (x := (s * 60 * (1 + (r * 2 - 1) * (2 # 10)))%Q).
  assert (Hx : (s * 48 <= x /\ x < s * 72)%Q).
  { assert (Hsr : (0 <= s * r)%Q)
      by (apply Qmult_le_0_compat; [apply Qlt_le_weak, Hs0 | apply Hr]).
    assert (Hsr' : (0 < s * (1 - r))%Q).
    { apply Qmult_lt_0_compat; [exact Hs0|].
      apply (proj1 (Qlt_minus_iff r 1)), Hr. }
    assert (Ex : (x == s * 48 + 24 * (s * r))%Q) by (unfold x; ring).
    assert (Ex' : (x == s * 72 - 24 * (s * (1 - r)))%Q) by (unfold x; ring).
    clearbody x. clear Hsw Hwq.
    set (a := (s * r)%Q) in *. set (b := (s * (1 - r))%Q) in *.
    clearbody a b. split; Lqa.lra. }
  clearbody x.
  destruct (truncate_bounds x) as (Hlo & Hhi & Hk0);
    [apply Qle_trans with (s * 48)%Q; [| apply Hx];
     apply Qmult_le_0_compat; [apply Qlt_le_weak, Hs0 | discriminate] |].
  set (k := Mouse.truncate x) in *. clearbody k.
  exists k. unfold ret.
  assert (Hk72 : k * readingSpeedWPM t < 72 * wordCount).
  { rewrite Zlt_Qlt. rewrite !inject_Z_mult. rewrite <- Hsw.
    change (inject_Z 72) with 72%Q. Lqa.nra. }
  assert (Hk48 : 48 * wordCount < (k + 1) * readingSpeedWPM t).
  { rewrite Zlt_Qlt. rewrite !inject_Z_mult. rewrite <- Hsw.
    change (inject_Z 48) with 48%Q. Lqa.nra. }
  split; [| split; [exact Hk0 | split; lia]].
  unfold GoInt.mul, Second.
  rewrite GoIntFacts.wrap64_small by (unfold GoInt.inRange; nia).
  reflexivity.
Qed.

Lemma X11_ReadingTime_witness :
  exists k,
    @ReadingTime unit (NewTimingController 2 5 1 3 200) 400 (fromList [0])
    = Ok (k * Second) (advance (fromList [0])) []
    /\ 0 <= k
    /\ 48 * 400 < (k + 2) * 200
    /\ k * 200 < 72 * 400 + 200.
Proof.
  apply (X11_ReadingTime (NewTimingController 2 5 1 3 200) 400 (fromList [0]));
    simpl; lia.
Defined.

End TimingFacts.

(** *** Further properties of the scroller *)

Module ScrollingMore.
Import Effects EffectsFacts Scrolling ScrollingFacts.
Local Open Scope go_scope.

(** The chunk count and the chunk size [ScrollDown] and [ScrollUp] compute
    from the first draw. *)
Lemma chunk_plan distance k :
  - 2 ^ 62 < distance < 2 ^ 62 -> 0 <= k < 10 ->
  GoInt.add 5 k = 5 + k
  /\ GoInt.quo distance (5 + k) = distance ÷ (5 + k)
  /\ - 2 ^ 62 < distance ÷ (5 + k) < 2 ^ 62
  /\ (distance ÷ (5 + k) < 2 <-> distance < 2 * (5 + k))
  /\ exists n, Z.to_nat (5 + k) = S n.
Proof.
  intros Hd Hk. unfold GoInt.add, GoInt.quo.
  rewrite (GoIntFacts.wrap64_small (5 + k)) by (unfold GoInt.inRange; lia).
  assert (Hq : - 2 ^ 62 < distance ÷ (5 + k) < 2 ^ 62)
    by (Z.to_euclidean_division_equations; nia).
  rewrite GoIntFacts.wrap64_small by (unfold GoInt.inRange; lia).
  repeat split; try lia.
  - Z.to_euclidean_division_equations; nia.
  - Z.to_euclidean_division_equations; nia.
  - exists (Z.to_nat (4 + k)). lia.
Qed.

Lemma half_of_small chunkSize :
  - 2 ^ 62 < chunkSize < 2 -> GoInt.quo chunkSize 2 <= 0.
Proof.
  intros H. unfold GoInt.quo.
  assert (- 2 ^ 62 < chunkSize ÷ 2 <= 0)
    by (Z.to_euclidean_division_equations; nia).
  rewrite GoIntFacts.wrap64_small by (unfold GoInt.inRange; lia). lia.
Qed.

(** X12.  When planning a scroll panics: with 5 + (draw mod 10) chunks,
    [ScrollDown] and [ScrollUp] panic in [rand.Intn] before any call when the
    distance is less than twice the chunk count, negative distances
    included, and return otherwise.  So they panic for every draw below a
    distance of 10, return for every draw from 28 on, and in between it
    depends on the draw. *)
Theorem X12_scroll_panics_exactly s distance rng :
  speedsValid s -> - 2 ^ 62 < distance < 2 ^ 62 ->
  let chunks := 5 + raw rng mod 10 in
  if distance <? 2 * chunks then
    ScrollDown s distance rng = Panic [] IntnPanic
    /\ ScrollUp s distance rng = Panic [] IntnPanic
  else
    (exists rng' tr, ScrollDown s distance rng = Ok None rng' tr)
    /\ (exists rng' tr, ScrollUp s distance rng = Ok None rng' tr).
Proof.
  intros Hs Hd chunks.
  pose proof (Z.mod_pos_bound (raw rng) 10 ltac:(lia)) as Hk.
  destruct (chunk_plan distance _ Hd Hk) as (Ec & Eq & Hq & Hlt & n & En).
  fold chunks in Ec, Eq, Hq, Hlt, En.
  unfold ScrollDown, ScrollUp. rewrite !bind_Intn by lia.
  rewrite Ec, Eq, En.
  destruct (Z.ltb_spec distance (2 * chunks)) as [Hsmall | Hbig].
  - assert (Hhalf : GoInt.quo (distance ÷ chunks) 2 <= 0)
      by (apply half_of_small; lia).
    split; unfold bind at 1;
      rewrite times_panics with (msg := IntnPanic); try reflexivity.
    + unfold scrollDownChunk, bind. now rewrite scrollAmount_panics.
    + unfold scrollUpChunk, bind. now rewrite scrollAmount_panics.
  - assert (Hc : 2 <= distance ÷ chunks < 2 ^ 62) by lia.
    split.
    + destruct (times_returns _ _ (S n)
                  (scrollDownChunk_returns s chunks _ Hs Hc) (advance rng))
        as ([] & r' & t & Ht & _).
      exists r', (t ++ []). unfold bind. now rewrite Ht.
    + assert (Hup : returns (scrollUpChunk s chunks (distance ÷ chunks))
                (fun _ t => exists a, forwardDeltas t = [a] /\ True)).
      { eapply returns_weaken;
          [apply (scrollUpChunk_returns s chunks _ Hs Hc) |].
        intros _ t (a & Ha & _). now exists (- a). }
      destruct (times_returns _ _ (S n) Hup (advance rng))
        as ([] & r' & t & Ht & _).
      exists r', (t ++ []). unfold bind. now rewrite Ht.
Qed.

Lemma X12_scroll_panics_exactly_witness :
  (exists rng' tr,
     ScrollDown (NewScroller 100 300 (1 # 10) (1 # 5)) 20 (fromList [0])
     = Ok None rng' tr)
  /\ (exists rng' tr,
        ScrollUp (NewScroller 100 300 (1 # 10) (1 # 5)) 20 (fromList [0])
        = Ok None rng' tr).
Proof.
  apply (X12_scroll_panics_exactly (NewScroller 100 300 (1 # 10) (1 # 5)) 20
           (fromList [0])); [unfold speedsValid; simpl; lia | lia].
Defined.

Lemma always_times {E} (body : M E unit) (P : E -> Prop) n :
  always body P -> always (times n body) P.
Proof.
  intros Hbody. induction n as [| n IH]; simpl.
  - apply always_ret.
  - apply always_bind; [exact Hbody | intros _; exact IH].
Qed.

Lemma pace_paced s :
  speedsValid s -> speedMax s <= 1000000000000 -> always (pace s) (paced s).
Proof.
  intros (H0 & H1 & H2) Hmax. unfold pace, GoInt.add, GoInt.sub.
  rewrite (GoIntFacts.wrap64_small (speedMax s - speedMin s))
    by (unfold GoInt.inRange; lia).
  rewrite (GoIntFacts.wrap64_small (speedMax s - speedMin s + 1))
    by (unfold GoInt.inRange; lia).
  apply always_bind_Intn. intros k Hk.
  apply always_bind.
  { apply always_emit. unfold paced, ms, GoInt.mul, Millisecond.
    rewrite (GoIntFacts.wrap64_small (speedMin s + k))
      by (unfold GoInt.inRange; lia).
    rewrite GoIntFacts.wrap64_small by (unfold GoInt.inRange; lia). lia. }
  intros _. apply always_bind; [apply always_Float64 | intros p].
  destruct (Qltb _ _); [| apply always_ret].
  apply always_bind_Intn. intros n Hn. apply always_emit.
  unfold paced, ms, GoInt.mul, GoInt.add, Millisecond.
  rewrite (GoIntFacts.wrap64_small (500 + n)) by (unfold GoInt.inRange; lia).
  rewrite GoIntFacts.wrap64_small by (unfold GoInt.inRange; lia). lia.
Qed.

Lemma scrollDownChunk_paced s chunks chunkSize :
  speedsValid s -> speedMax s <= 1000000000000 -> 5 <= chunks <= 14 ->
  always (scrollDownChunk s chunks chunkSize) (paced s).
Proof.
  intros Hs Hmax Hc. unfold scrollDownChunk.
  apply always_bind.
  { unfold scrollAmount.
    apply always_bind; [apply always_Intn | intros; apply always_ret]. }
  intros amount.
  apply always_bind; [now apply always_emit | intros _].
  apply always_bind; [now apply pace_paced | intros _].
  apply always_bind; [apply always_Float64 | intros q].
  destruct (Qltb _ _); [| apply always_ret].
  apply always_bind_Intn. intros k Hk.
  pose proof (GoIntFacts.wrap64_range (amount ÷ 2)) as Hr.
  fold (GoInt.quo amount 2) in Hr. unfold GoInt.inRange in Hr.
  apply always_bind.
  { apply always_emit. unfold paced, GoInt.neg.
    rewrite GoIntFacts.wrap64_small by (unfold GoInt.inRange; lia).
    split; [lia | reflexivity]. }
  intros _. apply always_bind_Intn. intros n Hn. apply always_emit.
  unfold paced, ms, GoInt.mul, GoInt.add, Millisecond.
  rewrite (GoIntFacts.wrap64_small (200 + n)) by (unfold GoInt.inRange; lia).
  rewrite GoIntFacts.wrap64_small by (unfold GoInt.inRange; lia). lia.
Qed.

Lemma scrollUpChunk_paced s chunks chunkSize :
  speedsValid s -> speedMax s <= 1000000000000 -> 5 <= chunks <= 14 ->
  always (scrollUpChunk s chunks chunkSize) (paced s).
Proof.
  intros Hs Hmax Hc. unfold scrollUpChunk.
  apply always_bind.
  { unfold scrollAmount.
    apply always_bind; [apply always_Intn | intros; apply always_ret]. }
  intros amount.
  apply always_bind; [now apply always_emit | intros _].
  now apply pace_paced.
Qed.

(** X13.  The pacing of a scroll, for a scroller with
    0 <= speedMin <= speedMax <= 10^12 and any distance: every delay between
    chunks lasts between speedMin and speedMax milliseconds, every random
    pause between 500 and 1999, every pause after a scroll back between 200
    and 499; every chunk is scrolled in 5 to 14 steps, and every scroll back
    in one step and never forwards.  This holds for the calls issued before
    a panic too. *)
Theorem X13_scroll_pacing s distance rng :
  speedsValid s -> speedMax s <= 1000000000000 ->
  Forall (paced s) (traceOf (ScrollDown s distance rng))
  /\ Forall (paced s) (traceOf (ScrollUp s distance rng)).
Proof.
  intros Hs Hmax.
  assert (Hc : forall k, 0 <= k < 10 -> 5 <= GoInt.add 5 k <= 14).
  { intros k Hk. unfold GoInt.add.
    rewrite GoIntFacts.wrap64_small by (unfold GoInt.inRange; lia). lia. }
  split; revert rng.
  - change (always (ScrollDown s distance) (paced s)). unfold ScrollDown.
    apply always_bind_Intn. intros k Hk.
    apply always_bind; [| intros _; apply always_ret].
    apply always_times. apply scrollDownChunk_paced; auto.
  - change (always (ScrollUp s distance) (paced s)). unfold ScrollUp.
    apply always_bind_Intn. intros k Hk.
    apply always_bind; [| intros _; apply always_ret].
    apply always_times. apply scrollUpChunk_paced; auto.
Qed.

Lemma X13_scroll_pacing_witness :
  Forall (paced (NewScroller 100 300 (1 # 10) (1 # 5)))
         (traceOf (ScrollDown (NewScroller 100 300 (1 # 10) (1 # 5)) 500
                              (fromList [3; 1; 4])))
  /\ Forall (paced (NewScroller 100 300 (1 # 10) (1 # 5)))
            (traceOf (ScrollUp (NewScroller 100 300 (1 # 10) (1 # 5)) 500
                               (fromList [3; 1; 4]))).
Proof.
  apply (X13_scroll_pacing (NewScroller 100 300 (1 # 10) (1 # 5)) 500
           (fromList [3; 1; 4])); [unfold speedsValid; simpl; lia | simpl; lia].
Defined.

Lemma allDeltas_app t1 t2 :
  allDeltas (t1 ++ t2) = allDeltas t1 ++ allDeltas t2.
Proof. apply flat_map_app. Qed.

Lemma sum_app l1 l2 : sum (l1 ++ l2) = sum l1 + sum l2.
Proof.
  induction l1 as [| d l1 IH]; [reflexivity|].
  change (sum ((d :: l1) ++ l2)) with (d + sum (l1 ++ l2)).
  change (sum (d :: l1)) with (d + sum l1). lia.
Qed.

Lemma pace_silent s :
  speedsValid s ->
  returns (pace s) (fun _ t => forwardDeltas t = [] /\ allDeltas t = []).
Proof.
  intros (H0 & H1 & H2). unfold pace, GoInt.add, GoInt.sub.
  rewrite (GoIntFacts.wrap64_small (speedMax s - speedMin s))
    by (unfold GoInt.inRange; lia).
  rewrite (GoIntFacts.wrap64_small (speedMax s - speedMin s + 1))
    by (unfold GoInt.inRange; lia).
  apply returns_bind_Intn; [lia | intros k Hk].
  apply returns_bind_emit.
  apply returns_bind_Float64. intros p _.
  destruct (Qltb _ _).
  - apply returns_bind_Intn; [lia | intros n _].
    now apply returns_emit.
  - now apply returns_ret.
Qed.

Lemma scrollDownChunk_advances s chunks chunkSize :
  speedsValid s -> 2 <= chunkSize < 2 ^ 62 ->
  returns (scrollDownChunk s chunks chunkSize) (fun _ t => advances t).
Proof.
  intros Hs Hc. unfold scrollDownChunk.
  eapply returns_bind; [apply (scrollAmount_returns _ Hc) |].
  intros a t1 [-> Ha]. simpl.
  destruct (deltaWithin_half _ _ Hc Ha) as [Ha2 Hhalf].
  apply returns_bind_emit.
  eapply returns_bind; [apply (pace_silent _ Hs) |].
  intros [] t2 Ht2. cbv beta in Ht2. destruct Ht2 as [Hf2 Ha2'].
  apply returns_bind_Float64. intros q _.
  destruct (Qltb _ _).
  - assert (Eq : GoInt.quo a 2 = a / 2).
    { unfold GoInt.quo. rewrite Z.quot_div_nonneg by lia.
      apply GoIntFacts.wrap64_small. unfold GoInt.inRange.
      pose proof (Z.div_pos a 2 ltac:(lia) ltac:(lia)).
      pose proof (Z.div_le_upper_bound a 2 a ltac:(lia) ltac:(lia)). lia. }
    apply returns_bind_Intn; [assumption | intros b Hb].
    apply returns_bind_emit.
    apply returns_bind_Intn; [lia | intros n _].
    apply returns_emit. unfold advances.
    cbn [forwardDeltas allDeltas flat_map app].
    fold (forwardDeltas (t2 ++ [MouseScroll Back (GoInt.neg b) 1;
                                Sleep AfterScrollBack (ms (GoInt.add 200 n))])).
    fold (allDeltas (t2 ++ [MouseScroll Back (GoInt.neg b) 1;
                            Sleep AfterScrollBack (ms (GoInt.add 200 n))])).
    rewrite forwardDeltas_app, allDeltas_app, Hf2, Ha2'.
    cbn [forwardDeltas allDeltas flat_map app sum fold_right].
    rewrite Eq in Hb.
    pose proof (Z.mul_div_le a 2 ltac:(lia)) as Hd.
    unfold GoInt.neg.
    rewrite GoIntFacts.wrap64_small by (unfold GoInt.inRange; lia). lia.
  - apply returns_ret. unfold advances.
    cbn [forwardDeltas allDeltas flat_map app].
    fold (forwardDeltas (t2 ++ [])). fold (allDeltas (t2 ++ [])).
    rewrite forwardDeltas_app, allDeltas_app, Hf2, Ha2'.
    cbn [forwardDeltas allDeltas flat_map app sum fold_right]. lia.
Qed.

Lemma times_advances (body : M Event unit) n :
  returns body (fun _ t => advances t) ->
  returns (times n body)
    (fun _ t => sum (forwardDeltas t) + Z.of_nat n <= 2 * sum (allDeltas t)
                /\ sum (allDeltas t) <= sum (forwardDeltas t)).
Proof.
  intros Hbody. induction n as [| n IH]; simpl times.
  - apply returns_ret. simpl. lia.
  - eapply returns_bind; [apply Hbody |].
    intros _ t1 [H1 H1'].
    eapply returns_weaken; [apply IH |].
    intros _ t2 [H2 H2'].
    rewrite forwardDeltas_app, allDeltas_app, !sum_app. lia.
Qed.

(** X14.  Net progress of [ScrollDown]: for a scroller with
    0 <= speedMin <= speedMax and a distance of at least 28, the scroll
    backs take back less than half of what the chunks scroll: the deltas of
    all the scroll calls add up to more than half of the sum of the deltas
    of the chunks, and to at most that sum. *)
Theorem X14_scroll_backs_undo_less_than_half s distance rng :
  speedsValid s -> 28 <= distance < 2 ^ 62 ->
  exists rng' tr,
    ScrollDown s distance rng = Ok None rng' tr
    /\ sum (forwardDeltas tr) < 2 * sum (allDeltas tr)
    /\ sum (allDeltas tr) <= sum (forwardDeltas tr).
Proof.
  intros Hs Hd.
  pose proof (Z.mod_pos_bound (raw rng) 10 ltac:(lia)) as Hk.
  destruct (chunk_plan distance _ ltac:(lia) Hk) as (Ec & Eq & Hq & Hlt & n & En).
  unfold ScrollDown. rewrite bind_Intn by lia. rewrite Ec, Eq, En.
  assert (Hc : 2 <= distance ÷ (5 + raw rng mod 10) < 2 ^ 62) by lia.
  destruct (times_advances _ (S n)
              (scrollDownChunk_advances s (5 + raw rng mod 10) _ Hs Hc)
              (advance rng))
    as ([] & r' & t & Ht & H1 & H2).
  exists r', t. unfold bind. rewrite Ht. unfold ret. rewrite app_nil_r.
  split; [reflexivity | lia].
Qed.

Lemma X14_scroll_backs_undo_less_than_half_witness :
  exists rng' tr,
    ScrollDown (NewScroller 100 300 (1 # 2) (1 # 5)) 500 (fromList [3; 1; 4])
    = Ok None rng' tr
    /\ sum (forwardDeltas tr) < 2 * sum (allDeltas tr)
    /\ sum (allDeltas tr) <= sum (forwardDeltas tr).
Proof.
  apply (X14_scroll_backs_undo_less_than_half
           (NewScroller 100 300 (1 # 2) (1 # 5)) 500 (fromList [3; 1; 4]));
    [unfold speedsValid; simpl; lia | lia].
Defined.

Lemma ScrollDown_plan s distance rng :
  speedsValid s -> 28 <= distance < 2 ^ 62 ->
  exists rng' tr,
    ScrollDown s distance rng = Ok None rng' tr
    /\ 5 <= Z.of_nat (List.length (forwardDeltas tr)) <= 14
    /\ Forall (fun d => 0 < d) (forwardDeltas tr).
Proof.
  intros Hs Hd.
  pose proof (Z.mod_pos_bound (raw rng) 10 ltac:(lia)) as Hk.
  destruct (chunk_plan distance _ ltac:(lia) Hk)
    as (Ec & Eq & Hq & Hlt & n & En).
  unfold ScrollDown. rewrite bind_Intn by lia. rewrite Ec, Eq, En.
  assert (Hc : 2 <= distance ÷ (5 + raw rng mod 10) < 2 ^ 62) by lia.
  destruct (times_returns _ _ (S n)
              (scrollDownChunk_returns s (5 + raw rng mod 10) _ Hs Hc)
              (advance rng))
    as ([] & r' & t & Ht & Hlen & Hall).
  exists r', t. unfold bind. rewrite Ht. unfold ret. rewrite app_nil_r.
  split; [reflexivity |]. split; [lia |].
  eapply Forall_impl; [| exact Hall].
  intros a Ha. destruct (deltaWithin_half _ _ Hc Ha). lia.
Qed.

Lemma ScrollUp_plan s distance rng :
  speedsValid s -> 28 <= distance < 2 ^ 62 ->
  exists rng' tr,
    ScrollUp s distance rng = Ok None rng' tr
    /\ 5 <= Z.of_nat (List.length (forwardDeltas tr)) <= 14
    /\ Forall (fun d => d < 0) (forwardDeltas tr).
Proof.
  intros Hs Hd.
  pose proof (Z.mod_pos_bound (raw rng) 10 ltac:(lia)) as Hk.
  destruct (chunk_plan distance _ ltac:(lia) Hk)
    as (Ec & Eq & Hq & Hlt & n & En).
  unfold ScrollUp. rewrite bind_Intn by lia. rewrite Ec, Eq, En.
  assert (Hc : 2 <= distance ÷ (5 + raw rng mod 10) < 2 ^ 62) by lia.
  assert (Hup : returns
            (scrollUpChunk s (5 + raw rng mod 10)
                           (distance ÷ (5 + raw rng mod 10)))
            (fun _ t => exists a, forwardDeltas t = [a] /\ a < 0)).
  { eapply returns_weaken;
      [apply (scrollUpChunk_returns s _ _ Hs Hc) |].
    intros _ t (a & Ha & Hw). exists (- a). split; [exact Ha|].
    destruct (deltaWithin_half _ _ Hc Hw). lia. }
  destruct (times_returns _ _ (S n) Hup (advance rng))
    as ([] & r' & t & Ht & Hlen & Hall).
  exists r', t. unfold bind. rewrite Ht. unfold ret. rewrite app_nil_r.
  split; [reflexivity |]. split; [lia | exact Hall].
Qed.

(** X15.  [RandomScroll] never panics for a scroller with
    0 <= speedMin <= speedMax: the distances it draws, 200 to 699 downwards
    and 100 to 399 upwards, are large enough.  It returns nil after 5 to 14
    chunks, all of them downwards when its first draw is below one half and
    all of them upwards otherwise. *)
Theorem X15_RandomScroll s rng :
  speedsValid s ->
  exists rng' tr,
    RandomScroll s rng = Ok None rng' tr
    /\ 5 <= Z.of_nat (List.length (forwardDeltas tr)) <= 14
    /\ if Qltb (float64Of (raw rng)) (1 # 2)
       then Forall (fun d => 0 < d) (forwardDeltas tr)
       else Forall (fun d => d < 0) (forwardDeltas tr).
Proof.
  intros Hs. unfold RandomScroll. rewrite bind_Float64.
  destruct (Qltb _ _).
  - rewrite bind_Intn by lia.
    pose proof (Z.mod_pos_bound (raw (advance rng)) 500 ltac:(lia)) as Hk.
    unfold GoInt.add.
    rewrite GoIntFacts.wrap64_small by (unfold GoInt.inRange; lia).
    apply ScrollDown_plan; [exact Hs | lia].
  - rewrite bind_Intn by lia.
    pose proof (Z.mod_pos_bound (raw (advance rng)) 300 ltac:(lia)) as Hk.
    unfold GoInt.add.
    rewrite GoIntFacts.wrap64_small by (unfold GoInt.inRange; lia).
    apply ScrollUp_plan; [exact Hs | lia].
Qed.

Lemma X15_RandomScroll_witness :
  exists rng' tr,
    RandomScroll (NewScroller 100 300 (1 # 10) (1 # 5)) (fromList [3; 1; 4])
    = Ok None rng' tr
    /\ 5 <= Z.of_nat (List.length (forwardDeltas tr)) <= 14
    /\ Forall (fun d => 0 < d) (forwardDeltas tr).
Proof.
  apply (X15_RandomScroll (NewScroller 100 300 (1 # 10) (1 # 5))
           (fromList [3; 1; 4])).
  unfold speedsValid; simpl; lia.
Defined.

(** X16.  [ScrollToElement] near its target, with the distance
    d = yVal - viewport/2 - currentScroll to scroll: when d is 0 it returns
    nil without a call or a draw; when d is not 0 but between -9 and 9, it
    panics in [rand.Intn] before any call, whatever the draws; otherwise it
    is [ScrollDown] by d, or [ScrollUp] by -d when d is negative. *)
Theorem X16_ScrollToElement_near_target s yVal viewport currentScroll rng :
  - 2 ^ 60 < yVal < 2 ^ 60 -> - 2 ^ 60 < viewport < 2 ^ 60 ->
  - 2 ^ 60 < currentScroll < 2 ^ 60 ->
  let d := yVal - viewport ÷ 2 - currentScroll in
  ScrollToElement s yVal viewport currentScroll rng
  = if d =? 0 then Ok None rng []
    else if Z.abs d <? 10 then Panic [] IntnPanic
    else if 0 <? d then ScrollDown s d rng
    else ScrollUp s (- d) rng.
Proof.
  intros Hy Hv Hc d. unfold ScrollToElement, GoInt.sub, GoInt.quo, GoInt.neg.
  assert (Hq : - 2 ^ 60 < viewport ÷ 2 < 2 ^ 60)
    by (Z.to_euclidean_division_equations; lia).
  rewrite (GoIntFacts.wrap64_small (viewport ÷ 2))
    by (unfold GoInt.inRange; lia).
  rewrite (GoIntFacts.wrap64_small (yVal - viewport ÷ 2))
    by (unfold GoInt.inRange; lia).
  rewrite (GoIntFacts.wrap64_small (yVal - viewport ÷ 2 - currentScroll))
    by (unfold GoInt.inRange; lia).
  fold d.
  rewrite (GoIntFacts.wrap64_small (- d)) by (unfold GoInt.inRange; lia).
  destruct (Z.eqb_spec d 0) as [E0 | N0].
  - rewrite E0. reflexivity.
  - destruct (Z.ltb_spec (Z.abs d) 10) as [Hs | Hb].
    + destruct (Z.ltb_spec 0 d).
      * apply ScrollDown_small_panics. lia.
      * destruct (Z.ltb_spec d 0); [| lia].
        apply ScrollUp_small_panics. lia.
    + destruct (Z.ltb_spec 0 d); [reflexivity|].
      destruct (Z.ltb_spec d 0); [reflexivity | lia].
Qed.

Lemma X16_ScrollToElement_near_target_witness :
  ScrollToElement (NewScroller 100 300 (1 # 10) (1 # 5)) 905 800 500
                  (fromList [3; 1; 4])
  = Panic [] IntnPanic.
Proof.
  apply (X16_ScrollToElement_near_target
           (NewScroller 100 300 (1 # 10) (1 # 5)) 905 800 500
           (fromList [3; 1; 4])); lia.
Defined.

End ScrollingMore.

(** *** Further properties of the curve *)

Module BezierMore.
Import Mouse BezierFacts.
Local Open Scope R_scope.

(** X17.  [binomialCoefficient] computes the binomial coefficient: for
    0 <= k <= n it is n! / (k! (n-k)!), and for k > n it is 0. *)
Theorem X17_binomialCoefficient (n k : nat) :
  binomialCoefficient (Z.of_nat n) (Z.of_nat k)
  = if (k <=? n)%nat then INR (fact n) / (INR (fact k) * INR (fact (n - k)))
    else 0.
Proof.
  destruct (Nat.leb_spec k n) as [Hk | Hk].
  - now rewrite binomialCoefficient_C.
  - unfold binomialCoefficient.
    destruct (Z.ltb_spec (Z.of_nat n) (Z.of_nat k)); [reflexivity | lia].
Qed.







End BezierMore.

(** *** Further properties of the mouse mover *)

Module MouseMore.
Import Effects EffectsFacts Mouse BezierFacts BezierMore MouseFacts.
Local Open Scope go_scope.





















Lemma moveStep_brief m len i point :
  (0 <= speedVariation m <= 1)%Q ->
  always (moveStep m len i point) briefSleep.
Proof.
  intros Hsv r. rewrite moveStep_run. cbv zeta.
  pose proof (Z.mod_pos_bound (drawAt r 0) 10 ltac:(lia)) as Hb.
  destruct (stepDelay_range m _ _ Hsv Hb (Float64_range (drawAt r 1)))
    as [Hd Hh].
  set (delay := stepDelay m (drawAt r 0 mod 10) (float64Of (drawAt r 1))) in *.
  assert (Hhalf : 0 <= GoInt.quo delay 2 <= 28 * Millisecond).
  { split; [exact Hh|]. unfold GoInt.quo.
    assert (0 <= delay ÷ 2 <= delay)
      by (Z.to_euclidean_division_equations; lia).
    rewrite GoIntFacts.wrap64_small
      by (unfold GoInt.inRange, Millisecond in *; lia). lia. }
  destruct (_ && _); [destruct (Qltb _ _) |]; simpl;
    repeat first [ apply Forall_cons | apply Forall_nil ];
    try exact I; assumption.
Qed.

Lemma moveAlong_brief m len path :
  (0 <= speedVariation m <= 1)%Q ->
  forall i, always (moveAlong m len i path) briefSleep.
Proof.
  intros Hsv. induction path as [| p path IH]; intros i; simpl.
  - apply always_ret.
  - apply always_bind; [now apply moveStep_brief | intros _; apply IH].
Qed.

(** X25.  For a speed variation between 0 and 1 every sleep of
    [moveToPoint] lasts between 0 and 28 milliseconds: the base delay is
    5 to 14 ms and the variation does not exceed it. *)
Theorem X25_moveToPoint_step_delays m start end_ rng :
  (0 <= speedVariation m <= 1)%Q ->
  Forall briefSleep (traceOf (moveToPoint m start end_ rng)).
Proof.
  intros Hsv.
  destruct (moveToPoint_trace m start end_ rng)
    as [-> | (path & r1 & _ & ->)].
  - constructor.
  - now apply moveAlong_brief.
Qed.

Lemma X25_moveToPoint_step_delays_witness :
  Forall briefSleep
    (traceOf (moveToPoint (NewMouseMover 4 (1 # 5) (1 # 10) (1 # 10))
                          (mkPoint 0 0) (mkPoint 300 200)
                          (fromList [3; 1; 4]))).
Proof.
  apply (X25_moveToPoint_step_delays
           (NewMouseMover 4 (1 # 5) (1 # 10) (1 # 10))).
  simpl. split; discriminate.
Defined.



End MouseMore.

(** *** The degenerate path *)

Module DegenerateFacts.
Import Stdlib.Floats.Floats.
Import Effects EffectsFacts Mouse BezierFacts BezierMore MouseFacts
       MouseMore.
Local Open Scope go_scope.










End DegenerateFacts.

(** *** Properties of the fingerprint masker *)

Module FingerprintFacts.
Import Effects EffectsFacts Fingerprint.
Local Open Scope go_scope.

(** An index drawn by [Intn(len(s))] is in range. *)
Lemma bind_Intn_index {E A B} (s : list A) zero (f : A -> M E B) r :
  s <> [] ->
  bind (Intn (Z.of_nat (List.length s)))
       (fun i => bind (index s i zero) f) r
  = f (nth (Z.to_nat (raw r mod Z.of_nat (List.length s))) s zero)
      (advance r).
Proof.
  intros Hs.
  assert (Hlen : 0 < Z.of_nat (List.length s))
    by (destruct s; [contradiction | simpl; lia]).
  rewrite bind_Intn by assumption.
  pose proof (Z.mod_pos_bound (raw r) _ Hlen) as Hk.
  unfold index, bind at 1.
  destruct (Z.ltb_spec (raw r mod Z.of_nat (List.length s)) 0); [lia|].
  destruct (Z.leb_spec (Z.of_nat (List.length s))
                       (raw r mod Z.of_nat (List.length s))); [lia|].
  simpl. unfold ret. now destruct (f _ _).
Qed.

Lemma drawn_member {A} (s : list A) zero k :
  0 <= k < Z.of_nat (List.length s) -> In (nth (Z.to_nat k) s zero) s.
Proof. intros Hk. apply nth_In. lia. Qed.

(** X27.  [GetRandomUserAgent] never panics: with no user agent configured
    it returns the built-in one without a draw; otherwise it takes one draw
    and returns one of the configured user agents. *)
Theorem X27_GetRandomUserAgent f rng :
  exists ua,
    @GetRandomUserAgent unit f rng
    = Ok ua (if Nat.eqb (List.length (userAgents f)) 0 then rng
             else advance rng) []
    /\ if Nat.eqb (List.length (userAgents f)) 0 then ua = defaultUserAgent
       else In ua (userAgents f).
Proof.
  unfold GetRandomUserAgent.
  destruct (Nat.eqb_spec (List.length (userAgents f)) 0) as [E | N].
  - now exists defaultUserAgent.
  - assert (Hs : userAgents f <> []) by (intros H; rewrite H in N; auto).
    assert (Hlen : 0 < Z.of_nat (List.length (userAgents f))) by lia.
    rewrite bind_Intn by assumption.
    pose proof (Z.mod_pos_bound (raw rng) _ Hlen) as Hk.
    unfold index.
    destruct (Z.ltb_spec (raw rng mod Z.of_nat (List.length (userAgents f))) 0);
      [lia|].
    destruct (Z.leb_spec (Z.of_nat (List.length (userAgents f)))
                (raw rng mod Z.of_nat (List.length (userAgents f)))); [lia|].
    simpl. eexists. split; [reflexivity|]. now apply drawn_member.
Qed.

(** X28.  [GetRandomViewport] panics in [rand.Intn] when the list of widths
    or the list of heights is empty; otherwise it takes two draws and
    returns one of the widths and one of the heights. *)
Theorem X28_GetRandomViewport f rng :
  match viewportWidths f, viewportHeights f with
  | [], _ | _, [] =>
      @GetRandomViewport unit f rng = Panic [] "invalid argument to Intn"
  | _ :: _, _ :: _ =>
      exists w h,
        @GetRandomViewport unit f rng = Ok (w, h) (advanceBy 2 rng) []
        /\ In w (viewportWidths f) /\ In h (viewportHeights f)
  end.
Proof.
  unfold GetRandomViewport.
  destruct (viewportWidths f) as [| w0 ws] eqn:Ew; [reflexivity|].
  rewrite bind_Intn_index by discriminate.
  destruct (viewportHeights f) as [| h0 hs] eqn:Eh; [reflexivity|].
  rewrite bind_Intn_index by discriminate.
  eexists _, _. split; [reflexivity|].
  split; apply drawn_member; apply Z.mod_pos_bound; simpl List.length; lia.
Qed.

End FingerprintFacts.

(** *** Properties of the configuration loader *)

Module ConfigFacts.
Import Config.
Local Open Scope string_scope.

(** X29.  What [LoadConfig] returns when it succeeds: the parsed file with
    the two overrides of the environment, accepted by [validateConfig].
    LOG_LEVEL replaces the level when it is set; HEADLESS_MODE can switch
    the headless mode on but never off; nothing else differs from the file,
    and there is at least one user agent. *)
Theorem X29_LoadConfig LoadLocation ReadFile Unmarshal Getenv c :
  LoadConfig LoadLocation ReadFile Unmarshal Getenv = inl c ->
  exists data parsed,
    ReadFile = inl data /\ Unmarshal data = inl parsed
    /\ validateConfig LoadLocation c = None
    /\ Level (Logging c)
       = (if (Getenv "LOG_LEVEL" =? "")%string then Level (Logging parsed)
          else Getenv "LOG_LEVEL")
    /\ Headless (Browser c)
       = (Headless (Browser parsed)
          || (Getenv "HEADLESS_MODE" =? "true")%string)
    /\ Search c = Search parsed /\ Connections c = Connections parsed
    /\ Messaging c = Messaging parsed /\ Stealth c = Stealth parsed
    /\ UserAgents (Browser c) = UserAgents (Browser parsed)
    /\ ViewportWidths (Browser c) = ViewportWidths (Browser parsed)
    /\ ViewportHeights (Browser c) = ViewportHeights (Browser parsed)
    /\ TimeoutSeconds (Browser c) = TimeoutSeconds (Browser parsed)
    /\ UserAgents (Browser c) <> [].
Proof.
  unfold LoadConfig. intros H.
  destruct ReadFile as [data | err]; [| discriminate].
  destruct (Unmarshal data) as [parsed | err] eqn:Ep; [| discriminate].
  exists data, parsed. split; [reflexivity|]. split; [exact Ep|].
  cbv zeta in H.
  match type of H with
  | match validateConfig _ ?cfg with _ => _ end = _ =>
      destruct (validateConfig LoadLocation cfg) eqn:Ev; [discriminate|];
      injection H as <-
  end.
  split; [exact Ev|].
  assert (Hua : UserAgents (Browser parsed) <> []).
  { unfold validateConfig in Ev.
    repeat match type of Ev with
           | (if ?b then _ else _) = None =>
               destruct b eqn:?; [discriminate|]
           end.
    match goal with
    | Hb : Nat.eqb _ _ = false |- _ =>
        apply Nat.eqb_neq in Hb; intros Hnil; apply Hb; revert Hnil; clear
    end.
    destruct (Getenv "LOG_LEVEL" =? "")%string,
             (Getenv "HEADLESS_MODE" =? "true")%string; simpl;
      intros ->; reflexivity. }
  destruct (Getenv "LOG_LEVEL" =? "")%string,
           (Getenv "HEADLESS_MODE" =? "true")%string; simpl;
    rewrite ?orb_true_r, ?orb_false_r; repeat split; auto.
Qed.

Lemma X29_LoadConfig_witness :
  validateConfig Sched.builtinLocation (withHeadless Main.invertedConfig)
  = None
  /\ Headless (Browser (withHeadless Main.invertedConfig)) = true
  /\ Stealth (withHeadless Main.invertedConfig) = Main.invertedStealth.
Proof.
  destruct (X29_LoadConfig Sched.builtinLocation (inl "")
              (fun _ => inl Main.invertedConfig)
              (fun k => if (k =? "HEADLESS_MODE") then "true" else "")
              (withHeadless Main.invertedConfig) eq_refl)
    as (data & parsed & _ & _ & Hv & _ & _ & _ & _ & _ & _ & _).
  split; [exact Hv | split; reflexivity].
Defined.

End ConfigFacts.

(** *** Properties of the connection notes *)

Module NotesFacts.
Import Effects EffectsFacts Notes FingerprintFacts.
Local Open Scope go_scope.
Local Open Scope string_scope.

Lemma length_append (a b : string) :
  String.length (a ++ b) = (String.length a + String.length b)%nat.
Proof. induction a as [| c a IH]; simpl; [reflexivity | now rewrite IH]. Qed.

Lemma length_substring (s : string) : forall n,
  (n <= String.length s)%nat -> String.length (substring 0 n s) = n.
Proof.
  induction s as [| c s IH]; intros [| n] H; simpl in *;
    try reflexivity; try lia.
  rewrite IH; [reflexivity | lia].
Qed.

Lemma prefix_substring (s : string) : forall n,
  prefix (substring 0 n s) s = true.
Proof.
  induction s as [| c s IH]; intros [| n]; simpl; try reflexivity.
  destruct (Ascii.ascii_dec c c); [apply IH | contradiction].
Qed.

(** X30.  [generateNote], for a character limit below 2^62 in absolute
    value.  Without templates the note is empty and no draw is taken.
    Otherwise one template is drawn and filled in; a note within the limit
    is returned as it is; a longer one is cut to a beginning of itself
    followed by three dots, of exactly the limit in length, when the limit
    is at least 3, and makes the slice expression panic when the limit is
    below 3. *)
Theorem X30_generateNote config profileName jobTitle company rng :
  (- 2 ^ 62 < Config.NoteCharacterLimit config < 2 ^ 62)%Z ->
  if Nat.eqb (List.length (Config.NoteTemplates config)) 0 then
    @generateNote unit config profileName jobTitle company rng = Ok "" rng []
  else
    exists template,
      In template (Config.NoteTemplates config)
      /\ let note := fill template profileName jobTitle company in
         if (Z.of_nat (String.length note)
             <=? Config.NoteCharacterLimit config)%Z
         then @generateNote unit config profileName jobTitle company rng
              = Ok note (advance rng) []
         else if (3 <=? Config.NoteCharacterLimit config)%Z then
           exists head,
             @generateNote unit config profileName jobTitle company rng
             = Ok (head ++ "...") (advance rng) []
             /\ prefix head note = true
             /\ Z.of_nat (String.length (head ++ "..."))
                = Config.NoteCharacterLimit config
         else @generateNote unit config profileName jobTitle company rng
              = Panic [] "slice bounds out of range".
Proof.
  intros Hlimit. unfold generateNote.
  destruct (Nat.eqb_spec (List.length (Config.NoteTemplates config)) 0)
    as [E | N]; [reflexivity|].
  assert (Hs : Config.NoteTemplates config <> [])
    by (intros H; rewrite H in N; auto).
  rewrite bind_Intn_index by assumption.
  set (k := raw rng mod Z.of_nat (List.length (Config.NoteTemplates config))).
  assert (Hk : (0 <= k < Z.of_nat (List.length (Config.NoteTemplates config)))%Z)
    by (apply Z.mod_pos_bound; lia).
  exists (nth (Z.to_nat k) (Config.NoteTemplates config) "").
  split; [now apply drawn_member|].
  cbv zeta.
  set (note := fill _ profileName jobTitle company).
  destruct (Z.leb_spec (Z.of_nat (String.length note))
                       (Config.NoteCharacterLimit config)) as [Hfit | Hlong].
  - destruct (Z.ltb_spec (Config.NoteCharacterLimit config)
                         (Z.of_nat (String.length note))); [lia|].
    reflexivity.
  - destruct (Z.ltb_spec (Config.NoteCharacterLimit config)
                         (Z.of_nat (String.length note))); [| lia].
    unfold sliceTo, GoInt.sub.
    rewrite GoIntFacts.wrap64_small by (unfold GoInt.inRange; lia).
    destruct (Z.leb_spec 3 (Config.NoteCharacterLimit config)) as [H3 | H3].
    + destruct (Z.ltb_spec (Config.NoteCharacterLimit config - 3) 0); [lia|].
      destruct (Z.ltb_spec (Z.of_nat (String.length note))
                           (Config.NoteCharacterLimit config - 3)); [lia|].
      simpl orb. cbv iota.
      exists (substring 0 (Z.to_nat (Config.NoteCharacterLimit config - 3))
                        note).
      split; [reflexivity|]. split; [apply prefix_substring|].
      rewrite length_append, length_substring by lia. simpl. lia.
    + destruct (Z.ltb_spec (Config.NoteCharacterLimit config - 3) 0); [| lia].
      reflexivity.
Qed.

Lemma X30_generateNote_witness :
  exists head,
    @generateNote unit
      (Config.mkConnectionsConfig 20 5
         ["Hi {{firstName}}, I saw your work as {{jobTitle}}."] 20 30 90)
      "Ada Lovelace" "engineer" "Analytical Engines" (fromList [0])
    = Ok (head ++ "...") (advance (fromList [0])) []
    /\ prefix head "Hi Ada, I saw your work as engineer." = true
    /\ Z.of_nat (String.length (head ++ "...")) = 20%Z.
Proof.
  destruct (X30_generateNote
              (Config.mkConnectionsConfig 20 5
                 ["Hi {{firstName}}, I saw your work as {{jobTitle}}."]
                 20 30 90)
              "Ada Lovelace" "engineer" "Analytical Engines" (fromList [0])
              ltac:(simpl; lia))
    as (template & [<- | []] & H).
  exact H.
Defined.

End NotesFacts.
